(** * SimpleKanbanCalendar: recurrence expansion, scoped deletion, day
      matching, editing and interchange, verified over a shallow embedding
      of [main.go].

    The program keeps its timestamps as strings ("2006-01-02 15:04") and
    goes through Go's [time] package at every use.  The first part of the
    development is therefore a model of the part of [time] that the
    program calls: [Date], [AddDate], [Add], [Sub], [Weekday], [Format] and
    [Parse] for the layouts that occur in [main.go].  [time.Local] is taken
    to be a zone with no offset and no daylight saving time (civil time),
    and instants are unbounded integers: the model follows the package on
    the range where its internal 64-bit counters do not overflow. *)

From Stdlib Require Import ZArith List String Ascii Bool Lia.
From Stdlib Require Import DecimalString.
Import ListNotations.
Open Scope Z_scope.

(** ** Machine integers *)

Module GoInt.

Definition maxInt : Z := 9223372036854775807.
Definition minInt : Z := -9223372036854775808.

(** Two's complement wrap-around of Go's 64-bit [int]. *)
Definition wrap64 (z : Z) : Z :=
  (z + 9223372036854775808) mod 18446744073709551616 - 9223372036854775808.

Definition isDigit (c : ascii) : bool :=
  let n := Z.of_nat (nat_of_ascii c) in (48 <=? n) && (n <=? 57).

Definition digitVal (c : ascii) : Z := Z.of_nat (nat_of_ascii c) - 48.

(** Value of a run of decimal digits; [None] on any other character. *)
Fixpoint digitsVal (acc : Z) (s : string) : option Z :=
  match s with
  | EmptyString => Some acc
  | String c r =>
      if isDigit c then digitsVal (10 * acc + digitVal c) r else None
  end.

(** [strconv.Atoi] with the error dropped, as [n, _ := strconv.Atoi(s)]
    reads it: 0 on a syntax error, the nearest bound on a range error. *)
Definition Atoi (s : string) : Z :=
  let '(neg, body) :=
    match s with
    | String "-"%char r => (true, r)
    | String "+"%char r => (false, r)
    | _ => (false, s)
    end in
  match body with
  | EmptyString => 0
  | _ =>
      match digitsVal 0 body with
      | None => 0
      | Some v =>
          if neg then (if v <=? 9223372036854775808 then - v else minInt)
          else (if v <=? maxInt then v else maxInt)
      end
  end.

Definition digitChar (d : Z) : ascii := ascii_of_nat (Z.to_nat (48 + d)).

(** Decimal digits of a natural number, most significant first. *)
Definition decimal (u : Z) : string :=
  NilZero.string_of_uint (N.to_uint (Z.to_N u)).

(** [%d] of [fmt.Sprintf]. *)
Definition fmtInt (x : Z) : string :=
  if x <? 0 then String "-"%char (decimal (- x)) else decimal x.

(** [%02d] of [fmt.Sprintf]: padded with a zero to two characters, the
    sign counting as one. *)
Definition fmtInt02 (x : Z) : string :=
  if (0 <=? x) && (x <? 10) then String "0"%char (decimal x) else fmtInt x.

End GoInt.

(** ** The calendar of Go's [time] package *)

Module GoTime.

(** An instant: nanoseconds since 0001-01-01 00:00:00, the zero [Time]. *)
Definition Time : Type := Z.

(** A [time.Duration]: a signed 64-bit count of nanoseconds. *)
Definition Duration : Type := Z.

Definition nsPerSecond : Z := 1000000000.
Definition secondsPerDay : Z := 86400.
Definition nsPerDay : Z := 86400000000000.
Definition daysPer400Years : Z := 146097.
Definition daysPer100Years : Z := 36524.
Definition daysPer4Years : Z := 1461.

Definition maxDuration : Duration := 9223372036854775807.
Definition minDuration : Duration := -9223372036854775808.

Definition isLeap (year : Z) : bool :=
  (Z.rem year 4 =? 0) && (negb (Z.rem year 100 =? 0) || (Z.rem year 400 =? 0)).

(** [daysBefore[m]]: days in a non-leap year before month [m+1]. *)
Definition daysBefore (m : Z) : Z :=
  match m with
  | 0 => 0 | 1 => 31 | 2 => 59 | 3 => 90 | 4 => 120 | 5 => 151
  | 6 => 181 | 7 => 212 | 8 => 243 | 9 => 273 | 10 => 304 | 11 => 334
  | _ => 365
  end.

Definition daysIn (month year : Z) : Z :=
  if (month =? 2) && isLeap year then 29
  else daysBefore month - daysBefore (month - 1).

(** [norm hi lo base]: carry [lo] into [hi] so that [0 <= lo < base]. *)
Definition norm (hi lo base : Z) : Z * Z := (hi + lo / base, lo mod base).

(** Days from the epoch to January 1st of [year], by cycles of 400, 100
    and 4 years as the package counts them. *)
Definition daysSinceEpoch (year : Z) : Z :=
  let y := year - 1 in
  let n400 := y / 400 in
  let y1 := y - 400 * n400 in
  let n100 := y1 / 100 in
  let y2 := y1 - 100 * n100 in
  let n4 := y2 / 4 in
  let y3 := y2 - 4 * n4 in
  daysPer400Years * n400 + daysPer100Years * n100 + daysPer4Years * n4
  + 365 * y3.

(** [time.Date] in the civil zone.  Month, then the clock fields, are
    normalised with overflow into the next larger unit; the day is taken
    as it is, so that day 31 of a 30-day month is day 1 of the next. *)
Definition Date (year month day hour min sec nsec : Z) : Time :=
  let '(year, m) := norm year (month - 1) 12 in
  let month := m + 1 in
  let '(sec, nsec) := norm sec nsec nsPerSecond in
  let '(min, sec) := norm min sec 60 in
  let '(hour, min) := norm hour min 60 in
  let '(day, hour) := norm day hour 24 in
  let d := daysSinceEpoch year + daysBefore (month - 1)
           + (if isLeap year && (3 <=? month) then 1 else 0)
           + (day - 1) in
  (d * secondsPerDay + hour * 3600 + min * 60 + sec) * nsPerSecond + nsec.

(** Whole days since the epoch, and the year and day-of-year of a day. *)
Definition absDays (t : Time) : Z := t / nsPerDay.

Definition absYear (d : Z) : Z * Z :=
  let n400 := d / daysPer400Years in
  let d1 := d - daysPer400Years * n400 in
  let n100 := d1 / daysPer100Years in
  let n100 := n100 - Z.shiftr n100 2 in
  let d2 := d1 - daysPer100Years * n100 in
  let n4 := d2 / daysPer4Years in
  let d3 := d2 - daysPer4Years * n4 in
  let n1 := d3 / 365 in
  let n1 := n1 - Z.shiftr n1 2 in
  let d4 := d3 - 365 * n1 in
  (1 + 400 * n400 + 100 * n100 + 4 * n4 + n1, d4).

(** Month and day of the month from the year and the day of the year. *)
Definition monthDay (year yday : Z) : Z * Z :=
  let leapDay := isLeap year && (yday =? 59) in
  if leapDay then (2, 29)
  else
    let day := if isLeap year && (59 <? yday) then yday - 1 else yday in
    let month := day / 31 in
    let endm := daysBefore (month + 1) in
    if endm <=? day then (month + 2, day - endm + 1)
    else (month + 1, day - daysBefore month + 1).

(** [t.Date()] and [t.Clock()]. *)
Definition dateOf (t : Time) : Z * Z * Z :=
  let '(year, yday) := absYear (absDays t) in
  let '(month, day) := monthDay year yday in
  (year, month, day).

Definition secOfDay (t : Time) : Z := (t / nsPerSecond) mod secondsPerDay.
Definition Hour (t : Time) : Z := secOfDay t / 3600.
Definition Minute (t : Time) : Z := (secOfDay t mod 3600) / 60.
Definition Second (t : Time) : Z := secOfDay t mod 60.
Definition Nanosecond (t : Time) : Z := t mod nsPerSecond.

Definition Year (t : Time) : Z := fst (fst (dateOf t)).
Definition Month (t : Time) : Z := snd (fst (dateOf t)).
Definition Day (t : Time) : Z := snd (dateOf t).

(** [t.Weekday()], Sunday = 0: the epoch day was a Monday. *)
Definition Weekday (t : Time) : Z := (absDays t + 1) mod 7.

Definition AddDate (years months days : Z) (t : Time) : Time :=
  let '(year, month, day) := dateOf t in
  Date (year + years) (month + months) (day + days)
       (Hour t) (Minute t) (Second t) (Nanosecond t).

Definition Add (t : Time) (d : Duration) : Time := t + d.

(** [t.Sub(u)] saturates at the bounds of [Duration]. *)
Definition Sub (t u : Time) : Duration :=
  let d := t - u in
  if (minDuration <=? d) && (d <=? maxDuration) then d
  else if t <? u then minDuration else maxDuration.

Definition Before (t u : Time) : bool := t <? u.
Definition After (t u : Time) : bool := u <? t.
Definition Equal (t u : Time) : bool := t =? u.
Definition IsZero (t : Time) : bool := t =? 0.

(** *** Layouts, [Format] and [Parse] *)

(** The chunks [nextStdChunk] cuts the program's layouts into. *)
Inductive Chunk : Type :=
| Lit (s : string)
| stdLongYear      (* 2006 *)
| stdZeroMonth     (* 01 *)
| stdZeroDay       (* 02 *)
| stdHour          (* 15 *)
| stdZeroMinute    (* 04 *)
| stdZeroSecond.   (* 05 *)

Definition Layout : Type := list Chunk.

(** "2006-01-02 15:04", the layout of the stored timestamps. *)
Definition layoutItem : Layout :=
  [stdLongYear; Lit "-"; stdZeroMonth; Lit "-"; stdZeroDay; Lit " ";
   stdHour; Lit ":"; stdZeroMinute].

(** "20060102T150405" and "20060102", the layouts the importer tries. *)
Definition layoutICalLocal : Layout :=
  [stdLongYear; stdZeroMonth; stdZeroDay; Lit "T";
   stdHour; stdZeroMinute; stdZeroSecond].

Definition layoutICalDate : Layout := [stdLongYear; stdZeroMonth; stdZeroDay].

(** "20060102T150405Z", the layout the calendar library writes. *)
Definition layoutICalUtc : Layout :=
  [stdLongYear; stdZeroMonth; stdZeroDay; Lit "T";
   stdHour; stdZeroMinute; stdZeroSecond; Lit "Z"].

Fixpoint zeros (n : nat) : string :=
  match n with O => EmptyString | S k => String "0"%char (zeros k) end.

(** [appendInt]: sign, then the magnitude padded with zeros to [width]. *)
Definition appendInt (x : Z) (width : nat) : string :=
  let u := Z.abs x in
  let sign := if x <? 0 then "-"%string else EmptyString in
  if (Nat.eqb width 2) && (u <? 100) then
    sign ++ String (GoInt.digitChar (u / 10))
              (String (GoInt.digitChar (u mod 10)) EmptyString)
  else if (Nat.eqb width 4) && (u <? 10000) then
    sign ++ String (GoInt.digitChar (u / 1000))
              (String (GoInt.digitChar (u / 100 mod 10))
                 (String (GoInt.digitChar (u / 10 mod 10))
                    (String (GoInt.digitChar (u mod 10)) EmptyString)))
  else
    let ds := GoInt.decimal u in
    sign ++ zeros (width - String.length ds) ++ ds.

Definition formatChunk (t : Time) (c : Chunk) : string :=
  match c with
  | Lit s => s
  | stdLongYear => appendInt (Year t) 4
  | stdZeroMonth => appendInt (Month t) 2
  | stdZeroDay => appendInt (Day t) 2
  | stdHour => appendInt (Hour t) 2
  | stdZeroMinute => appendInt (Minute t) 2
  | stdZeroSecond => appendInt (Second t) 2
  end.

Definition Format (layout : Layout) (t : Time) : string :=
  String.concat EmptyString (map (formatChunk t) layout).

Definition isSpace (c : ascii) : bool := Ascii.eqb c " "%char.

Fixpoint cutspace (s : string) : string :=
  match s with
  | String c r => if isSpace c then cutspace r else s
  | EmptyString => s
  end.

(** [skip value prefix]: remove the literal [prefix] from [value], a run
    of spaces in the layout standing for any run of spaces in the value.
    [run] says that the previous character of the prefix was a space, so
    that the spaces of the value have been cut already. *)
Fixpoint skip (run : bool) (prefix value : string) : option string :=
  match prefix with
  | EmptyString => Some value
  | String c p =>
      if isSpace c then
        if run then skip true p value
        else
          match value with
          | String v _ =>
              if isSpace v then skip true p (cutspace value) else None
          | EmptyString => skip true p value
          end
      else
        match value with
        | String v r => if Ascii.eqb v c then skip false p r else None
        | EmptyString => None
        end
  end.

(** [getnum]: one or two digits; exactly two when [fixed]. *)
Definition getnum (s : string) (fixed : bool) : option (Z * string) :=
  match s with
  | String a r =>
      if GoInt.isDigit a then
        match r with
        | String b r' =>
            if GoInt.isDigit b
            then Some (GoInt.digitVal a * 10 + GoInt.digitVal b, r')
            else if fixed then None else Some (GoInt.digitVal a, r)
        | EmptyString => if fixed then None else Some (GoInt.digitVal a, r)
        end
      else None
  | EmptyString => None
  end.

(** The four digits of [stdLongYear]. *)
Definition getyear (s : string) : option (Z * string) :=
  match s with
  | String a (String b (String c (String d r))) =>
      if GoInt.isDigit a && GoInt.isDigit b && GoInt.isDigit c
         && GoInt.isDigit d
      then Some (((GoInt.digitVal a * 10 + GoInt.digitVal b) * 10
                  + GoInt.digitVal c) * 10 + GoInt.digitVal d, r)
      else None
  | _ => None
  end.

(** The leading digits of a string, and what follows them. *)
Fixpoint spanDigits (s : string) : string * string :=
  match s with
  | String c r =>
      if GoInt.isDigit c
      then let '(ds, rest) := spanDigits r in (String c ds, rest)
      else (EmptyString, s)
  | EmptyString => (EmptyString, EmptyString)
  end.

Fixpoint firstN (n : nat) (s : string) : string :=
  match n, s with
  | S k, String c r => String c (firstN k r)
  | _, _ => EmptyString
  end.

(** A fractional second that the layout does not ask for is read all the
    same: a comma or a period, then digits, of which nine count. *)
Definition getfrac (s : string) : option (Z * string) :=
  match s with
  | String sep (String d r) =>
      if (Ascii.eqb sep "."%char || Ascii.eqb sep ","%char) && GoInt.isDigit d
      then
        let '(ds, rest) := spanDigits (String d r) in
        let ds9 := firstN 9 ds in
        match GoInt.digitsVal 0 ds9 with
        | Some v => Some (v * 10 ^ Z.of_nat (9 - String.length ds9), rest)
        | None => None
        end
      else None
  | _ => None
  end.

Record Fields : Type := mkFields
  { fYear : Z; fMonth : Z; fDay : Z; fHour : Z; fMin : Z; fSec : Z;
    fNsec : Z }.

(** The values [Parse] starts from. *)
Definition noFields : Fields := mkFields 0 (-1) (-1) 0 0 0 0.

Definition parseChunk (c : Chunk) (f : Fields) (value : string)
  : option (Fields * string) :=
  match c with
  | Lit s =>
      match skip false s value with
      | Some v => Some (f, v)
      | None => None
      end
  | stdLongYear =>
      match getyear value with
      | Some (y, v) =>
          Some (mkFields y (fMonth f) (fDay f) (fHour f) (fMin f) (fSec f)
                  (fNsec f), v)
      | None => None
      end
  | stdZeroMonth =>
      match getnum value true with
      | Some (m, v) =>
          if (m <=? 0) || (12 <? m) then None
          else Some (mkFields (fYear f) m (fDay f) (fHour f) (fMin f)
                       (fSec f) (fNsec f), v)
      | None => None
      end
  | stdZeroDay =>
      match getnum value true with
      | Some (d, v) =>
          Some (mkFields (fYear f) (fMonth f) d (fHour f) (fMin f) (fSec f)
                  (fNsec f), v)
      | None => None
      end
  | stdHour =>
      match getnum value false with
      | Some (h, v) =>
          if (h <? 0) || (24 <=? h) then None
          else Some (mkFields (fYear f) (fMonth f) (fDay f) h (fMin f)
                       (fSec f) (fNsec f), v)
      | None => None
      end
  | stdZeroMinute =>
      match getnum value true with
      | Some (m, v) =>
          if (m <? 0) || (60 <=? m) then None
          else Some (mkFields (fYear f) (fMonth f) (fDay f) (fHour f) m
                       (fSec f) (fNsec f), v)
      | None => None
      end
  | stdZeroSecond =>
      match getnum value true with
      | Some (s, v) =>
          if (s <? 0) || (60 <=? s) then None
          else
            let f' := mkFields (fYear f) (fMonth f) (fDay f) (fHour f)
                        (fMin f) s (fNsec f) in
            match getfrac v with
            | Some (ns, v') =>
                Some (mkFields (fYear f) (fMonth f) (fDay f) (fHour f)
                        (fMin f) s ns, v')
            | None => Some (f', v)
            end
      | None => None
      end
  end.

Fixpoint parseChunks (layout : Layout) (f : Fields) (value : string)
  : option (Fields * string) :=
  match layout with
  | [] => Some (f, value)
  | c :: rest =>
      match parseChunk c f value with
      | Some (f', v) => parseChunks rest f' v
      | None => None
      end
  end.

(** [time.Parse] and [time.ParseInLocation] in the civil zone; [None] is
    the error.  Text left over after the layout and a day that the month
    does not have are errors. *)
Definition Parse (layout : Layout) (value : string) : option Time :=
  match parseChunks layout noFields value with
  | Some (f, EmptyString) =>
      if (fDay f <? 1) || (daysIn (fMonth f) (fYear f) <? fDay f) then None
      else Some (Date (fYear f) (fMonth f) (fDay f) (fHour f) (fMin f)
                   (fSec f) (fNsec f))
  | _ => None
  end.

(** [t, _ := time.Parse(...)]: the zero [Time] stands in on an error. *)
Definition orZero (r : option Time) : Time :=
  match r with Some t => t | None => 0 end.

End GoTime.

Import GoInt GoTime.
Open Scope string_scope.

(** ** Data of [main.go] *)

Definition ItemType : Type := string.
Definition TypeTask : ItemType := "Task".
Definition TypeEvent : ItemType := "Event".

Module Group.
Record t : Type := mk
  { ID : string; Name : string; ColorHex : string; SortMode : string }.
End Group.

Record TodoItem : Type := mkItem
  { ID : string;
    Title : string;
    Start : string;
    End_ : string;
    Type_ : ItemType;
    GroupID : string;
    GroupName : string;
    Completed : bool;
    SeriesID : string }.

(** What the program does to the outside: dialogs, the data file, the
    redrawing of the two views. *)
Inductive Effect : Type :=
| ShowError (msg : string)
| ShowInformation (title msg : string)
| ShowGroupForm
| SaveData (saved : list TodoItem)
| Refresh.

(** The widgets of the sidebar that the logic reads.  A getter that has
    not been assigned yet (a nil [func]) is [None]; otherwise it holds what
    the call returns. *)
Record Sidebar : Type := mkSidebar
  { sbTitleEntry : string;
    sbGroupSelect : string;
    sbGroupOptions : list string;
    sbTypeSelect : string;
    getTaskDateVal : option string;
    getTaskTimeVal : option (string * string * string);
    getStartDateVal : option string;
    getStartTimeVal : option (string * string * string);
    getEndDateVal : option string;
    getEndTimeVal : option (string * string * string);
    recCheck : bool;
    recModeRadio : string;
    recNumEntry : string;
    recUnitSelect : string;
    recOrdinalSelect : string;
    recDaySelect : string }.

(** The global state.  [clock k] is what the [k]-th call of
    [time.Now().UnixNano()] returns. *)
Record App : Type := mkApp
  { items : list TodoItem;
    groups : list Group.t;
    currentEditItemID : string;
    sb : Sidebar;
    clock : nat -> Z;
    ticks : nat;
    log : list Effect }.

Definition withItems (its : list TodoItem) (a : App) : App :=
  mkApp its (groups a) (currentEditItemID a) (sb a) (clock a) (ticks a) (log a).

Definition withSidebar (s : Sidebar) (a : App) : App :=
  mkApp (items a) (groups a) (currentEditItemID a) s (clock a) (ticks a) (log a).

Definition withEdit (id : string) (a : App) : App :=
  mkApp (items a) (groups a) id (sb a) (clock a) (ticks a) (log a).

Definition withTicks (n : nat) (a : App) : App :=
  mkApp (items a) (groups a) (currentEditItemID a) (sb a) (clock a) n (log a).

(** Effects are logged in the order they happen. *)
Definition emit (es : list Effect) (a : App) : App :=
  mkApp (items a) (groups a) (currentEditItemID a) (sb a) (clock a) (ticks a)
    (log a ++ es).

Definition setTitleText (txt : string) (s : Sidebar) : Sidebar :=
  mkSidebar txt (sbGroupSelect s) (sbGroupOptions s) (sbTypeSelect s)
    (getTaskDateVal s) (getTaskTimeVal s) (getStartDateVal s)
    (getStartTimeVal s) (getEndDateVal s) (getEndTimeVal s)
    (recCheck s) (recModeRadio s) (recNumEntry s) (recUnitSelect s)
    (recOrdinalSelect s) (recDaySelect s).

Definition setGroupSelected (txt : string) (s : Sidebar) : Sidebar :=
  mkSidebar (sbTitleEntry s) txt (sbGroupOptions s) (sbTypeSelect s)
    (getTaskDateVal s) (getTaskTimeVal s) (getStartDateVal s)
    (getStartTimeVal s) (getEndDateVal s) (getEndTimeVal s)
    (recCheck s) (recModeRadio s) (recNumEntry s) (recUnitSelect s)
    (recOrdinalSelect s) (recDaySelect s).

Definition setRecChecked (b : bool) (s : Sidebar) : Sidebar :=
  mkSidebar (sbTitleEntry s) (sbGroupSelect s) (sbGroupOptions s)
    (sbTypeSelect s)
    (getTaskDateVal s) (getTaskTimeVal s) (getStartDateVal s)
    (getStartTimeVal s) (getEndDateVal s) (getEndTimeVal s)
    b (recModeRadio s) (recNumEntry s) (recUnitSelect s)
    (recOrdinalSelect s) (recDaySelect s).

(** ** [autoSave] *)

(** The closure [combine] of [autoSave] and [handleSidebarAction]. *)
Definition combine (dateStr h m ap : string) : string :=
  let hour := Atoi h in
  let hour :=
    if (ap =? "PM") && negb (hour =? 12)%Z then wrap64 (hour + 12) else hour in
  let hour := if (ap =? "AM") && (hour =? 12)%Z then 0%Z else hour in
  dateStr ++ " " ++ fmtInt02 hour ++ ":" ++ m.

(** [for i := range items { if items[i].ID == id { ...; break } }]: the
    index the pointer [targetItem] is taken at. *)
Fixpoint findItem (id : string) (its : list TodoItem) : option nat :=
  match its with
  | [] => None
  | i :: r =>
      if ID i =? id then Some O
      else match findItem id r with Some k => Some (S k) | None => None end
  end.

(** Writing through the pointer [&items[i]]. *)
Fixpoint setNth (k : nat) (x : TodoItem) (its : list TodoItem) : list TodoItem :=
  match its, k with
  | [], _ => []
  | _ :: r, O => x :: r
  | i :: r, S k' => i :: setNth k' x r
  end.

(** [for _, g := range groups { if g.Name == sel { id = g.ID; break } }]
    starting from [dflt]. *)
Definition groupIDByName (gs : list Group.t) (sel dflt : string) : string :=
  match find (fun g => Group.Name g =? sel) gs with
  | Some g => Group.ID g
  | None => dflt
  end.

Definition editedItem (s : Sidebar) (gs : list Group.t) (it : TodoItem) : TodoItem :=
  let title := sbTitleEntry s in
  let gid := groupIDByName gs (sbGroupSelect s) (GroupID it) in
  let ty := if sbTypeSelect s =? "Event" then TypeEvent else TypeTask in
  let '(st, en) :=
    if ty =? TypeTask then
      match getTaskTimeVal s, getTaskDateVal s with
      | Some (h, m, ap), Some d =>
          let v := combine d h m ap in (v, v)
      | _, _ => (Start it, End_ it)
      end
    else
      match getStartTimeVal s, getStartDateVal s,
            getEndTimeVal s, getEndDateVal s with
      | Some (hS, mS, apS), Some dS, Some (hE, mE, apE), Some dE =>
          (combine dS hS mS apS, combine dE hE mE apE)
      | _, _, _, _ => (Start it, End_ it)
      end in
  mkItem (ID it) title st en ty gid (GroupName it) (Completed it) (SeriesID it).

Definition autoSave (a : App) : App :=
  if currentEditItemID a =? "" then a
  else if sbTitleEntry (sb a) =? "" then a
  else
    match findItem (currentEditItemID a) (items a) with
    | None => a
    | Some k =>
        match nth_error (items a) k with
        | None => a
        | Some it =>
            let its := setNth k (editedItem (sb a) (groups a) it) (items a) in
            emit [SaveData its; Refresh; Refresh] (withItems its a)
        end
    end.

(** [sbGroupSelect.SetSelected(text)] with the [OnChanged] that
    [createSidebar] installs: an option of that name is selected and the
    callback runs, once for each such option. *)
Definition groupChanged (text : string) (a : App) : App :=
  let a := withSidebar (setGroupSelected text (sb a)) a in
  if text =? "+ Create New Group" then
    let a := emit [ShowGroupForm] a in
    fold_left
      (fun a opt =>
         if "" =? opt
         then autoSave (withSidebar (setGroupSelected "" (sb a)) a)
         else a)
      (sbGroupOptions (sb a)) a
  else autoSave a.

Definition SetSelectedGroup (text : string) (a : App) : App :=
  fold_left (fun a opt => if text =? opt then groupChanged text a else a)
    (sbGroupOptions (sb a)) a.

(** ** [handleSidebarAction]: creation and recurrence expansion *)

(** The [switch] over [recDaySelect.Selected]; Monday when nothing matches. *)
Definition targetWeekdayOf (targetDayStr : string) : Z :=
  if targetDayStr =? "Sunday" then 0
  else if targetDayStr =? "Monday" then 1
  else if targetDayStr =? "Tuesday" then 2
  else if targetDayStr =? "Wednesday" then 3
  else if targetDayStr =? "Thursday" then 4
  else if targetDayStr =? "Friday" then 5
  else if targetDayStr =? "Saturday" then 6
  else 1.

(** The inner [for { daysToAdd++; ... }]: the first day after
    [currentDate] that falls on [targetWeekday].  The loop has no bound of
    its own; [fuel] bounds the search here, and [None] is "still running". *)
Fixpoint nextWeekday (fuel : nat) (daysToAdd : Z) (currentDate : Time)
    (targetWeekday : Z) : option Time :=
  match fuel with
  | O => None
  | S fuel' =>
      let daysToAdd := wrap64 (daysToAdd + 1) in
      let d := AddDate 0 0 daysToAdd currentDate in
      if (Weekday d =? targetWeekday)%Z then Some d
      else nextWeekday fuel' daysToAdd currentDate targetWeekday
  end.

(** One pass of the body of [for count < 100] up to the test against
    [limitDate]: the next [currentDate]. *)
Definition advance (fuel : nat) (s : Sidebar) (currentDate : Time) : option Time :=
  if recModeRadio s =? "Interval" then
    let n := Atoi (recNumEntry s) in
    let n := if (n <? 1)%Z then 1%Z else n in
    let u := recUnitSelect s in
    Some (if u =? "Day(s)" then AddDate 0 0 n currentDate
          else if u =? "Week(s)" then AddDate 0 0 (wrap64 (n * 7)) currentDate
          else if u =? "Month(s)" then AddDate 0 n 0 currentDate
          else if u =? "Year(s)" then AddDate n 0 0 currentDate
          else currentDate)
  else
    match nextWeekday fuel 0 currentDate (targetWeekdayOf (recDaySelect s)) with
    | None => None
    | Some d =>
        Some (if recOrdinalSelect s =? "Every Other" then AddDate 0 0 7 d else d)
    end.

(** [newItem := baseItem] with its own identity, start and end. *)
Definition generatedItem (baseItem : TodoItem) (now count : Z)
    (currentDate : Time) (duration : Duration) : TodoItem :=
  mkItem (fmtInt now ++ "-" ++ fmtInt count)
    (Title baseItem)
    (Format layoutItem currentDate)
    (Format layoutItem (Add currentDate duration))
    (Type_ baseItem) (GroupID baseItem) (GroupName baseItem)
    (Completed baseItem) (SeriesID baseItem).

(** [for count < 100 { ... }]: [remaining] is [100 - count].  Each emitted
    item comes with the [currentDate] it was built from. *)
Fixpoint expandLoop (fuel : nat) (remaining : nat) (s : Sidebar)
    (now : nat -> Z) (tick : nat) (baseItem : TodoItem) (duration : Duration)
    (limitDate currentDate : Time) (count : Z)
    : option (list (Time * TodoItem)) :=
  match remaining with
  | O => Some []
  | S remaining' =>
      match advance fuel s currentDate with
      | None => None
      | Some currentDate =>
          if After currentDate limitDate then Some []
          else
            let newItem :=
              generatedItem baseItem (now tick) count currentDate duration in
            match expandLoop fuel remaining' s now (S tick) baseItem duration
                    limitDate currentDate (count + 1) with
            | None => None
            | Some rest => Some ((currentDate, newItem) :: rest)
            end
      end
  end.

(** What the form asks to create: the start and end strings and the type. *)
Definition formTimes (s : Sidebar) : option (string * string * ItemType) :=
  if sbTypeSelect s =? "Event" then
    match getStartTimeVal s, getStartDateVal s,
          getEndTimeVal s, getEndDateVal s with
    | Some (hS, mS, apS), Some dS, Some (hE, mE, apE), Some dE =>
        Some (combine dS hS mS apS, combine dE hE mE apE, TypeEvent)
    | _, _, _, _ => None
    end
  else
    match getTaskTimeVal s, getTaskDateVal s with
    | Some (hD, mD, apD), Some d =>
        let v := combine d hD mD apD in Some (v, v, TypeTask)
    | _, _ => None
    end.

(** The group the new item goes to, and the state after the fall-back to
    the first group has selected it in the sidebar. *)
Definition resolveGroup (a : App) : string * App :=
  let selectedGroupID := groupIDByName (groups a) (sbGroupSelect (sb a)) "" in
  match groups a with
  | g0 :: _ =>
      if selectedGroupID =? ""
      then (Group.ID g0, SetSelectedGroup (Group.Name g0) a)
      else (selectedGroupID, a)
  | [] => (selectedGroupID, a)
  end.

(** The base item and the siblings that the recurrence adds to it, each
    with the date it was generated at. *)
Definition expansion (fuel : nat) (a : App) (selectedGroupID : string)
    (sVal eVal : string) (curType : ItemType)
    : option (TodoItem * list (Time * TodoItem)) :=
  let s := sb a in
  let tick := ticks a in
  let '(newSeriesID, tick) :=
    if recCheck s then ("s-" ++ fmtInt (clock a tick), S tick)
    else ("", tick) in
  let baseStart := orZero (Parse layoutItem sVal) in
  let baseEnd := orZero (Parse layoutItem eVal) in
  let duration := Sub baseEnd baseStart in
  let baseItem :=
    mkItem (fmtInt (clock a tick)) (sbTitleEntry s) sVal eVal curType
      selectedGroupID "" false newSeriesID in
  let tick := S tick in
  if recCheck s then
    let limitDate := AddDate 1 0 0 baseStart in
    match expandLoop fuel 100 s (clock a) tick baseItem duration limitDate
            baseStart 0 with
    | None => None
    | Some gen => Some (baseItem, gen)
    end
  else Some (baseItem, []).

(** The outcome of pressing "Add Item".  [Panicked] is the call of a
    getter that is still nil; [Running] an inner loop that has not ended
    within [fuel] passes. *)
Inductive Outcome : Type :=
| Done (a : App)
| Panicked
| Running.

Definition handleSidebarAction (fuel : nat) (a : App) : Outcome :=
  if sbTitleEntry (sb a) =? "" then
    Done (emit [ShowError "title required"] a)
  else
    let '(selectedGroupID, a) := resolveGroup a in
    if selectedGroupID =? "" then
      Done (emit [ShowError "please select a group"] a)
    else
      match formTimes (sb a) with
      | None => Panicked
      | Some (sVal, eVal, curType) =>
          match expansion fuel a selectedGroupID sVal eVal curType with
          | None => Running
          | Some (baseItem, gen) =>
              let itemsToCreate := baseItem :: map snd gen in
              let its := (items a ++ itemsToCreate)%list in
              let used := ((if recCheck (sb a) then 2 else 1)
                           + List.length gen)%nat in
              let a := withTicks (ticks a + used)%nat (withItems its a) in
              let a := emit [SaveData its; Refresh; Refresh] a in
              Done (withSidebar (setTitleText "" (sb a)) a)
          end
      end.

(** ** [resetSidebar] *)

(** [sbTitleEntry.SetText("")] runs [autoSave] through [OnChanged], which
    returns at once: the edit identity has just been cleared. *)
Definition resetSidebar (a : App) : App :=
  let a := withEdit "" a in
  withSidebar (setRecChecked false (setTitleText "" (sb a))) a.

(** ** [performSmartDelete] *)

Inductive Scope : Type := ThisOnly | ThisAndFuture | All.

(** [newItems := []TodoItem{}; for _, i := range items { if keep(i) {
    newItems = append(newItems, i) } }]. *)
Fixpoint keepLoop (keep : TodoItem -> bool) (its newItems : list TodoItem)
    : list TodoItem :=
  match its with
  | [] => newItems
  | i :: r => keepLoop keep r (if keep i then newItems ++ [i] else newItems)%list
  end.

Definition startTime (i : TodoItem) : Time := orZero (Parse layoutItem (Start i)).
Definition endTime (i : TodoItem) : Time := orZero (Parse layoutItem (End_ i)).

(** The three buttons of the "Delete Recurring" dialog, and the one
    filter of the plain confirmation. *)
Definition deleteThisOnly (targetID : string) (its : list TodoItem) : list TodoItem :=
  keepLoop (fun i => negb (ID i =? targetID)) its [].

Definition deleteThisAndFuture (targetItem : TodoItem) (its : list TodoItem)
    : list TodoItem :=
  let targetTime := startTime targetItem in
  keepLoop
    (fun i => negb (SeriesID i =? SeriesID targetItem)
              || Before (startTime i) targetTime)
    its [].

Definition deleteAll (targetItem : TodoItem) (its : list TodoItem) : list TodoItem :=
  keepLoop (fun i => negb (SeriesID i =? SeriesID targetItem)) its [].

Definition finish (a : App) : App :=
  resetSidebar (emit [SaveData (items a); Refresh; Refresh] a).

(** [answer] is what the user does with the dialog: [None] dismisses it.
    A target outside any series gets a yes/no confirmation, where every
    [Some _] is the "yes". *)
Definition performSmartDelete (targetID : string) (answer : option Scope)
    (a : App) : App :=
  match findItem targetID (items a) with
  | None => a
  | Some k =>
      match nth_error (items a) k with
      | None => a
      | Some targetItem =>
          if SeriesID targetItem =? "" then
            match answer with
            | Some _ => finish (withItems (deleteThisOnly targetID (items a)) a)
            | None => a
            end
          else
            match answer with
            | Some ThisOnly =>
                finish (withItems (deleteThisOnly targetID (items a)) a)
            | Some ThisAndFuture =>
                finish (withItems (deleteThisAndFuture targetItem (items a)) a)
            | Some All =>
                finish (withItems (deleteAll targetItem (items a)) a)
            | None => a
            end
      end
  end.

(** ** The day cells of [refreshCalendar] *)

Definition dayStartOf (year month d : Z) : Time := Date year month d 0 0 0 0.
Definition dayEndOf (year month d : Z) : Time := Date year month d 23 59 59 0.

(** The test that puts an item into the cell of a day. *)
Definition matchesDay (item : TodoItem) (dayStart dayEnd : Time) : bool :=
  let s := startTime item in
  let e := endTime item in
  Before s dayEnd && (After e dayStart || Equal e dayStart).

(** [first.AddDate(0, 1, -1).Day()]. *)
Definition daysInMonth (year month : Z) : Z :=
  Day (AddDate 0 1 (-1) (Date year month 1 0 0 0 0)).

(** [for d := 1; d <= daysInMonth; d++]: the day numbers of the grid. *)
Definition monthDays (year month : Z) : list Z :=
  map Z.of_nat (seq 1 (Z.to_nat (daysInMonth year month))).

(** The items drawn in each day cell of the month shown, in store order. *)
Definition calendarCells (its : list TodoItem) (currentViewDate : Time)
    : list (Z * list TodoItem) :=
  let year := Year currentViewDate in
  let month := Month currentViewDate in
  map (fun d =>
         (d, filter (fun item =>
                       matchesDay item (dayStartOf year month d)
                         (dayEndOf year month d)) its))
    (monthDays year month).

(** ** Interchange: [exportICS] and [importICS] *)

(** One VEVENT as the program sees it through the calendar library: the
    values of the properties it sets and reads. *)
Record VEvent : Type := mkVEvent
  { uid : string;
    summary : option string;
    dtstart : option string;
    dtend : option string }.

(** [gName[g.ID] = g.Name] for every group in turn: the last one wins,
    and a missing key reads as the empty string. *)
Definition gNameOf (gs : list Group.t) (id : string) : string :=
  fold_left (fun name g => if Group.ID g =? id then Group.Name g else name) gs "".

Definition exportEvent (gs : list Group.t) (item : TodoItem) : VEvent :=
  mkVEvent (ID item)
    (Some ("[" ++ gNameOf gs (GroupID item) ++ "] " ++ Title item))
    (Some (Format layoutICalUtc (startTime item)))
    (Some (Format layoutICalUtc (endTime item))).

Definition exportICS (a : App) : list VEvent :=
  map (exportEvent (groups a)) (items a).

(** The start and the end the importer reads off an event: the layout
    with a time first, then the layout with a date only. *)
Definition importStart (start : string) : Time :=
  match Parse layoutICalLocal start with
  | Some t => t
  | None => orZero (Parse layoutICalDate start)
  end.

Definition importEnd (sTime : Time) (dtend : option string) : Time :=
  match dtend with
  | None => sTime
  | Some e =>
      let eTime := orZero (Parse layoutICalLocal e) in
      if IsZero eTime then orZero (Parse layoutICalDate e) else eTime
  end.

(** The body of the loop over [parsedCal.Events()]; [None] is [continue]. *)
Definition importEvent (targetGroupID : string) (now : Z) (count : Z)
    (event : VEvent) : option TodoItem :=
  match summary event, dtstart event with
  | Some title, Some start =>
      let sTime := importStart start in
      let eTime := importEnd sTime (dtend event) in
      let iType :=
        if negb (Equal eTime sTime) && negb (IsZero eTime)
        then TypeEvent else TypeTask in
      Some (mkItem ("imp-" ++ fmtInt now ++ "-" ++ fmtInt count) title
              (Format layoutItem sTime) (Format layoutItem eTime) iType
              targetGroupID "" false "")
  | _, _ => None
  end.

Fixpoint importLoop (targetGroupID : string) (now : nat -> Z) (tick : nat)
    (count : Z) (events : list VEvent) : list TodoItem :=
  match events with
  | [] => []
  | ev :: rest =>
      match importEvent targetGroupID (now tick) count ev with
      | Some it =>
          it :: importLoop targetGroupID now (S tick) (count + 1) rest
      | None => importLoop targetGroupID now tick count rest
      end
  end.

(** [importICS] after the file has been read: [parsed] is the result of
    [ical.ParseCalendar], [None] when it fails. *)
Definition importICS (parsed : option (list VEvent)) (a : App) : App :=
  match parsed with
  | None => emit [ShowError "failed to parse"] a
  | Some events =>
      let targetGroupID :=
        match groups a with g0 :: _ => Group.ID g0 | [] => "" end in
      let new := importLoop targetGroupID (clock a) (ticks a) 0 events in
      let its := (items a ++ new)%list in
      let a := withTicks (ticks a + List.length new) (withItems its a) in
      emit [SaveData its; Refresh; Refresh;
            ShowInformation "Imported"
              (fmtInt (Z.of_nat (List.length new)) ++ " items")] a
  end.

(** The imported counterparts of the store's own items: export, then
    import of what was exported. *)
Definition roundTrip (a : App) : list TodoItem :=
  importLoop (match groups a with g0 :: _ => Group.ID g0 | [] => "" end)
    (clock a) (ticks a) 0 (exportICS a).

(** ** [startEditing]: the time parts of an instant *)

(** "2006-01-02", the layout of the date buttons. *)
Definition layoutDate : Layout :=
  [stdLongYear; Lit "-"; stdZeroMonth; Lit "-"; stdZeroDay].

(** The closure [getTimeParts] of [startEditing], on the hour and the
    minute of the instant: the hour of the 12-hour clock, the minute, and
    AM or PM. *)
Definition timeParts (hour minute : Z) : string * string * string :=
  let h := hour in
  let ap := if (12 <=? h)%Z then "PM" else "AM" in
  let h := if (12 <=? h)%Z then (if (12 <? h)%Z then wrap64 (h - 12) else h) else h in
  let h := if (h =? 0)%Z then 12%Z else h in
  (fmtInt02 h, fmtInt02 minute, ap).

Definition getTimeParts (t : Time) : string * string * string :=
  timeParts (Hour t) (Minute t).

(** ** Calendars *)

Fixpoint replaceSpaces (s : string) : string :=
  match s with
  | EmptyString => EmptyString
  | String c r => String (if Ascii.eqb c " " then "_"%char else c) (replaceSpaces r)
  end.

(** [getFilenames]: the data file and the group file of a calendar. *)
Definition getFilenames (activeCalendarName : string) : string * string :=
  let prefix := replaceSpaces activeCalendarName in
  (prefix ++ "_data.json", prefix ++ "_groups.json").

(** The list of calendars and the calendar in use.  Switching to a
    calendar also reloads its groups and items from its files; the file
    system is outside this model. *)
Record Calendars : Type := mkCalendars
  { availableCalendars : list string;
    activeCalendarName : string;
    calendarErrors : list string }.

(** The "Create" button of [showCalendarManager]. *)
Definition createCalendar (input : string) (c : Calendars) : Calendars :=
  if input =? "" then c
  else if existsb (fun n => n =? input) (availableCalendars c) then c
  else mkCalendars (availableCalendars c ++ [input]) input (calendarErrors c).

(** [newList := []string{}; for _, c := range l { if keep(c) { newList =
    append(newList, c) } }]. *)
Definition keepNames (keep : string -> bool) (l : list string) : list string :=
  fold_left (fun acc c => if keep c then acc ++ [c] else acc)%list l [].

(** The delete button of a row, confirmed.  [None] is the panic of
    [availableCalendars[0]] on an empty list. *)
Definition deleteCalendar (name : string) (c : Calendars) : option Calendars :=
  if (List.length (availableCalendars c) <=? 1)%nat then
    Some (mkCalendars (availableCalendars c) (activeCalendarName c)
            (calendarErrors c ++ ["cannot delete last"]))
  else
    let newList := keepNames (fun n => negb (n =? name)) (availableCalendars c) in
    if activeCalendarName c =? name then
      match newList with
      | first :: _ => Some (mkCalendars newList first (calendarErrors c))
      | [] => None
      end
    else Some (mkCalendars newList (activeCalendarName c) (calendarErrors c)).

(** ** [showMoveDialog] *)

(** The groups offered: those other than the group of the item. *)
Definition moveOptions (gs : list Group.t) (item : TodoItem) : list string :=
  fold_left
    (fun opts g => if negb (Group.ID g =? GroupID item)
                   then opts ++ [Group.Name g] else opts)%list
    gs [].

Definition withGroupID (gid : string) (it : TodoItem) : TodoItem :=
  mkItem (ID it) (Title it) (Start it) (End_ it) (Type_ it) gid (GroupName it)
    (Completed it) (SeriesID it).

(** The "Move" button, for the item at index [k] of the store and the
    option [sel] selected. *)
Definition moveItem (k : nat) (sel : string) (a : App) : App :=
  if sel =? "" then a
  else
    match nth_error (items a) k with
    | None => a
    | Some item =>
        let gid := groupIDByName (groups a) sel (GroupID item) in
        let its := setNth k (withGroupID gid item) (items a) in
        emit [SaveData its; Refresh; Refresh] (withItems its a)
    end.

(** ** Notions used in the statements *)

Definition leapAdj (y m : Z) : Z := if isLeap y && (3 <=? m)%Z then 1%Z else 0%Z.
Definition yearLen (y : Z) : Z := if isLeap y then 366%Z else 365%Z.

(** Days from the epoch to the first day of month [m] of year [y], and to
    day [d] of that month. *)
Definition monthStart (y m : Z) : Z :=
  (daysSinceEpoch y + daysBefore (m - 1) + leapAdj y m)%Z.

Definition civilDays (y m d : Z) : Z := (monthStart y m + (d - 1))%Z.

(** A date of the calendar. *)
Definition validDate (y m d : Z) : Prop :=
  (1 <= m <= 12 /\ 1 <= d <= daysIn m y)%Z.

(** A check of all integers from 0 up to [n]. *)
Definition allBelow (n : nat) (f : Z -> bool) : bool :=
  forallb f (map Z.of_nat (seq 0 n)).

Definition monthDayOk (leap : bool) (yd : Z) : bool :=
  (let '(m, dd) :=
    (if leap && (yd =? 59) then (2, 29)
     else
       let day := if leap && (59 <? yd) then yd - 1 else yd in
       let month := day / 31 in
       let endm := daysBefore (month + 1) in
       if endm <=? day then (month + 2, day - endm + 1)
       else (month + 1, day - daysBefore month + 1)) in
  (1 <=? m) && (m <=? 12) && (1 <=? dd)
  && (dd <=? (if (m =? 2) && leap then 29 else daysBefore m - daysBefore (m - 1)))
  && (daysBefore (m - 1) + (if leap && (3 <=? m) then 1 else 0) + (dd - 1) =? yd))%Z.

Definition monthStepOk (leap : bool) (m : Z) : bool :=
  (let adj k := if leap && (3 <=? k) then 1 else 0 in
  let dim := if (m =? 2) && leap then 29 else daysBefore m - daysBefore (m - 1) in
  (daysBefore m + adj (m + 1) =? daysBefore (m - 1) + adj m + dim)
  && (28 <=? dim) && (dim <=? 31) && (0 <=? daysBefore (m - 1) + adj m))%Z.

Definition offsetMono (leap : bool) (a : Z) : bool :=
  (let off k := daysBefore k + (if leap && (3 <=? k + 1) then 1 else 0) in
  allBelow 13 (fun b => (b <? a) || (off a <=? off b))
  && (off 12 =? (if leap then 366 else 365)))%Z.

(** The [k]-th date the expansion loop computes from [t0], whether or
    not the loop gets that far. *)
Fixpoint computed (fuel : nat) (s : Sidebar) (t0 : Time) (k : nat) : option Time :=
  match k with
  | O => Some t0
  | S k' =>
      match computed fuel s t0 k' with
      | Some t => advance fuel s t
      | None => None
      end
  end.

(** Each instant is strictly later than the one before it. *)
Fixpoint increasing (l : list Time) : Prop :=
  match l with
  | a :: (b :: _) as r => (a < b)%Z /\ increasing r
  | _ => True
  end.

(** Each instant is exactly [d] later than the one before it. *)
Fixpoint stepsBy (d : Z) (l : list Time) : Prop :=
  match l with
  | a :: (b :: _) as r => (b = a + d)%Z /\ stepsBy d r
  | _ => True
  end.

(** The distance between two dates of a weekday rule. *)
Definition weekdayStep (s : Sidebar) : Z :=
  ((if (recOrdinalSelect s =? "Every Other")%string then 14 else 7) * nsPerDay)%Z.

(** The Interval rules whose step the machine integer can hold: one of the
    four units, and for weeks a count whose sevenfold does not wrap. *)
Definition intervalCount (s : Sidebar) : Z :=
  let n := Atoi (recNumEntry s) in if (n <? 1)%Z then 1%Z else n.

Definition forwardRule (s : Sidebar) : Prop :=
  recModeRadio s = "Interval" ->
  (recUnitSelect s = "Day(s)" \/ recUnitSelect s = "Month(s)"
   \/ recUnitSelect s = "Year(s)"
   \/ (recUnitSelect s = "Week(s)" /\ (intervalCount s * 7 <= maxInt)%Z)).

(** ** Sample states, for evaluating the model *)

Definition sampleSidebar : Sidebar :=
  mkSidebar "Stand-up" "Work" ["Personal"; "Work"; "+ Create New Group"] "Task"
    (Some "2024-03-05") (Some ("09", "00", "AM"))
    (Some "2024-03-05") (Some ("10", "00", "PM"))
    (Some "2024-03-06") (Some ("01", "00", "AM"))
    false "Interval" "1" "Week(s)" "Every" "Monday".

Definition sampleGroups : list Group.t :=
  [Group.mk "g-2" "Personal" "#2ECC71" ""; Group.mk "g-1" "Work" "#3498DB" ""].

Definition sampleClock (k : nat) : Z := (1700000000000000000 + Z.of_nat k)%Z.

Definition sampleApp (its : list TodoItem) (s : Sidebar) : App :=
  mkApp its sampleGroups "" s sampleClock 0 [].

Definition task (id title start series : string) : TodoItem :=
  mkItem id title start start TypeTask "g-1" "" false series.

Definition sampleSeries : list TodoItem :=
  [task "1" "Gym" "2024-03-04 18:00" "s-1";
   task "2" "Gym" "2024-03-11 18:00" "s-1";
   task "3" "Gym" "2024-03-18 18:00" "s-1";
   task "4" "Gym" "2024-03-25 18:00" "s-1";
   task "5" "Gym" "2024-04-01 18:00" "s-1";
   task "6" "Dentist" "2024-03-18 09:00" ""].

(** The sample sidebar with the recurrence box ticked and a rule chosen. *)
Definition recurringSidebar (mode num unit ord day : string) : Sidebar :=
  mkSidebar "Stand-up" "Work" ["Personal"; "Work"; "+ Create New Group"] "Task"
    (Some "2024-03-05") (Some ("09", "00", "AM"))
    (Some "2024-03-05") (Some ("10", "00", "PM"))
    (Some "2024-03-06") (Some ("01", "00", "AM"))
    true mode num unit ord day.

Definition sampleTask : TodoItem :=
  mkItem "t" "Pay rent" "2024-03-05 09:00" "2024-03-05 09:00" TypeTask "g-1" ""
    false "".

Definition sampleEvent : TodoItem :=
  mkItem "e" "Night shift" "2024-03-05 22:00" "2024-03-06 01:00" TypeEvent
    "g-1" "" false "".

(** [a'] differs from [a] at most in the group selected in the sidebar
    and in group forms shown. *)
Definition sameStore (a a' : App) : Prop :=
  items a' = items a /\ groups a' = groups a
  /\ currentEditItemID a' = currentEditItemID a
  /\ clock a' = clock a /\ ticks a' = ticks a
  /\ (exists x, sb a' = setGroupSelected x (sb a))
  /\ (exists n, log a' = (log a ++ repeat ShowGroupForm n)%list).

Definition firstGroupID (gs : list Group.t) : string :=
  match gs with g0 :: _ => Group.ID g0 | [] => "" end.

Section TimeNotions.
Open Scope Z_scope.

Definition digitOk (d : Z) : bool :=
  isDigit (digitChar d) && (digitVal (digitChar d) =? d)
  && negb (isSpace (digitChar d)).

Definition fieldsOk (f : Fields) : Prop :=
  0 <= fYear f <= 9999 /\ (fMonth f = -1 \/ 1 <= fMonth f <= 12)
  /\ 0 <= fHour f < 24 /\ 0 <= fMin f < 60 /\ 0 <= fSec f < 60
  /\ 0 <= fNsec f < 1000000000.

(** The layouts without a seconds field leave the seconds at zero. *)
Definition noSeconds (l : Layout) : Prop :=
  Forall (fun c => c <> stdZeroSecond) l.

(** On the minute: no seconds and no fraction of a second. *)
Definition onMinute (t : Time) : Prop := Second t = 0 /\ Nanosecond t = 0.

(** The number of days a Day or Week rule moves by; 0 for the other rules. *)
Definition stepDays (s : Sidebar) : Z :=
  if (recUnitSelect s =? "Day(s)")%string then intervalCount s
  else if (recUnitSelect s =? "Week(s)")%string then 7 * intervalCount s
  else 0.

Definition dayRule (s : Sidebar) : Prop :=
  recModeRadio s = "Interval"%string
  /\ (recUnitSelect s = "Day(s)"%string
      \/ (recUnitSelect s = "Week(s)"%string /\ 7 * intervalCount s <= maxInt)).

End TimeNotions.

(** An event the importer takes: it has a summary and a start. *)
Definition importable (e : VEvent) : bool :=
  match summary e, dtstart e with Some _, Some _ => true | _, _ => false end.

Definition timePartsOk (hour minute : Z) : bool :=
  let '(h, m, ap) := timeParts hour minute in
  (combine "" h m ap =? " " ++ appendInt hour 2 ++ ":" ++ appendInt minute 2).

Fixpoint hasSpace (s : string) : bool :=
  match s with
  | EmptyString => false
  | String c r => Ascii.eqb c " " || hasSpace r
  end.

Definition calendarsOk (c : Calendars) : Prop :=
  NoDup (availableCalendars c) /\ In (activeCalendarName c) (availableCalendars c).

(** The state on a first run. *)
Definition initialCalendars : Calendars := mkCalendars ["Default"] "Default" [].

(** What two sample rules generate: every year, and every six months. *)
Definition yearlyApp : App :=
  sampleApp sampleSeries (recurringSidebar "Interval" "1" "Year(s)" "Every" "Monday").

Definition halfYearlyApp : App :=
  sampleApp sampleSeries (recurringSidebar "Interval" "6" "Month(s)" "Every" "Monday").

Definition yearlyExpansion : option (TodoItem * list (Time * TodoItem)) :=
  Eval vm_compute in
    expansion 7 yearlyApp "g-1" "2024-03-05 09:00" "2024-03-05 10:30" TypeEvent.

Definition halfYearlyExpansion : option (TodoItem * list (Time * TodoItem)) :=
  Eval vm_compute in
    expansion 7 halfYearlyApp "g-1" "2024-03-05 09:00" "2024-03-05 09:00" TypeTask.

(* ================================================================== *)
(** * Properties *)

(** ** The calendar *)

Section Calendar.
Open Scope Z_scope.

Lemma allBelow_spec (n : nat) (f : Z -> bool) :
  allBelow n f = true -> forall z, 0 <= z < Z.of_nat n -> f z = true.
Proof.
  unfold allBelow. rewrite forallb_forall. intros H z Hz.
  apply H. apply in_map_iff. exists (Z.to_nat z). split; [lia|].
  apply in_seq. lia.
Qed.

Lemma rem_eqb_mod (a b : Z) : b <> 0 -> (Z.rem a b =? 0) = (a mod b =? 0).
Proof.
  intros Hb. apply eq_true_iff_eq. rewrite !Z.eqb_eq.
  rewrite Z.rem_divide, Z.mod_divide by assumption. tauto.
Qed.

Lemma isLeap_mod (y : Z) :
  isLeap y = (y mod 4 =? 0) && (negb (y mod 100 =? 0) || (y mod 400 =? 0)).
Proof. unfold isLeap. rewrite !rem_eqb_mod by lia. reflexivity. Qed.

(** The year and the day of the year of a day number. *)
Lemma absYear_spec (d : Z) :
  let '(y, yd) := absYear d in
  daysSinceEpoch y + yd = d /\ 0 <= yd < yearLen y.
Proof.
  unfold absYear, daysSinceEpoch, daysPer400Years, daysPer100Years,
    daysPer4Years, yearLen.
  rewrite isLeap_mod.
  rewrite !Z.shiftr_div_pow2 by lia. change (2 ^ 2) with 4.
  Z.div_mod_to_equations.
  split; [lia|].
  destruct (_ && _) eqn:E.
  - lia.
  - rewrite andb_false_iff, orb_false_iff, negb_false_iff, !Z.eqb_neq,
      !Z.eqb_eq in E. lia.
Qed.

Lemma monthDay_spec (y yd : Z) :
  0 <= yd < yearLen y ->
  let '(m, dd) := monthDay y yd in
  1 <= m <= 12 /\ 1 <= dd <= daysIn m y /\
  daysBefore (m - 1) + leapAdj y m + (dd - 1) = yd.
Proof.
  intros H.
  assert (K : monthDayOk (isLeap y) yd = true).
  { unfold yearLen in H. destruct (isLeap y).
    - apply (allBelow_spec 366); [vm_compute; reflexivity | lia].
    - apply (allBelow_spec 365); [vm_compute; reflexivity | lia]. }
  unfold monthDayOk in K. unfold monthDay, daysIn, leapAdj.
  destruct (if isLeap y && (yd =? 59) then _ else _) as [m dd].
  rewrite !andb_true_iff, !Z.leb_le, Z.eqb_eq in K. lia.
Qed.

Lemma Date_civil (y m d h mi s ns : Z) :
  1 <= m <= 12 ->
  Date y m d h mi s ns =
  (civilDays y m d * 86400 + h * 3600 + mi * 60 + s) * 1000000000 + ns.
Proof.
  intros Hm.
  unfold Date, norm, civilDays, monthStart, leapAdj, nsPerSecond, secondsPerDay.
  replace ((m - 1) / 12) with 0 by (Z.div_mod_to_equations; lia).
  replace ((m - 1) mod 12 + 1) with m by (Z.div_mod_to_equations; lia).
  rewrite Z.add_0_r.
  generalize (daysSinceEpoch y) (daysBefore (m - 1))
    (if isLeap y && (3 <=? m) then 1 else 0). intros A B C.
  Z.div_mod_to_equations. lia.
Qed.

Lemma dateOf_spec (t : Time) :
  let '(y, m, d) := dateOf t in
  validDate y m d /\ civilDays y m d = absDays t.
Proof.
  unfold dateOf. generalize (absYear_spec (absDays t)).
  destruct (absYear (absDays t)) as [y yd]. intros [H1 H2].
  generalize (monthDay_spec y yd H2).
  destruct (monthDay y yd) as [m d]. intros (Hm & Hd & He).
  unfold validDate, civilDays, monthStart. repeat split; try lia.
Qed.

Lemma clock_spec (t : Time) :
  (absDays t * 86400 + Hour t * 3600 + Minute t * 60 + Second t) * 1000000000
  + Nanosecond t = t
  /\ 0 <= Hour t < 24 /\ 0 <= Minute t < 60 /\ 0 <= Second t < 60
  /\ 0 <= Nanosecond t < 1000000000.
Proof.
  unfold absDays, Hour, Minute, Second, Nanosecond, secOfDay, nsPerDay,
    nsPerSecond, secondsPerDay.
  Z.div_mod_to_equations. lia.
Qed.

Lemma Date_dateOf (t : Time) :
  Date (Year t) (Month t) (Day t) (Hour t) (Minute t) (Second t) (Nanosecond t) = t.
Proof.
  unfold Year, Month, Day. generalize (dateOf_spec t).
  destruct (dateOf t) as [[y m] d]. cbn [fst snd]. intros [[Hm Hd] Hc].
  rewrite Date_civil by assumption. rewrite Hc.
  destruct (clock_spec t) as (Ht & _). exact Ht.
Qed.

(** Adding days moves the instant by that many days. *)
Lemma AddDate_days (k : Z) (t : Time) : AddDate 0 0 k t = t + k * nsPerDay.
Proof.
  unfold AddDate. generalize (dateOf_spec t).
  destruct (dateOf t) as [[y m] d]. intros [[Hm Hd] Hc].
  rewrite !Z.add_0_r, Date_civil by assumption.
  destruct (clock_spec t) as (Ht & _).
  unfold civilDays in *. unfold nsPerDay. lia.
Qed.

Lemma daysSinceEpoch_closed (y : Z) :
  daysSinceEpoch y = 365 * (y - 1) + (y - 1) / 4 - (y - 1) / 100 + (y - 1) / 400.
Proof.
  unfold daysSinceEpoch, daysPer400Years, daysPer100Years, daysPer4Years.
  Z.div_mod_to_equations. lia.
Qed.

Lemma daysSinceEpoch_succ (y : Z) :
  daysSinceEpoch (y + 1) = daysSinceEpoch y + yearLen y.
Proof.
  rewrite !daysSinceEpoch_closed. unfold yearLen. rewrite isLeap_mod.
  replace (y + 1 - 1) with y by lia.
  destruct (_ && _) eqn:E.
  - rewrite andb_true_iff, orb_true_iff, negb_true_iff, Z.eqb_neq, !Z.eqb_eq in E.
    Z.div_mod_to_equations. lia.
  - rewrite andb_false_iff, orb_false_iff, negb_false_iff, !Z.eqb_neq,
      !Z.eqb_eq in E.
    Z.div_mod_to_equations. lia.
Qed.

Lemma daysSinceEpoch_mono (y1 y2 : Z) :
  y1 < y2 -> daysSinceEpoch y1 + 365 * (y2 - y1) <= daysSinceEpoch y2.
Proof.
  intros H. rewrite !daysSinceEpoch_closed. Z.div_mod_to_equations. lia.
Qed.

Lemma monthStep (y m : Z) :
  1 <= m <= 12 ->
  daysBefore m + leapAdj y (m + 1) = daysBefore (m - 1) + leapAdj y m + daysIn m y
  /\ 28 <= daysIn m y <= 31 /\ 0 <= daysBefore (m - 1) + leapAdj y m.
Proof.
  intros H.
  assert (K : monthStepOk (isLeap y) m = true).
  { replace m with ((m - 1) + 1) by lia.
    destruct (isLeap y);
      refine (allBelow_spec 12 (fun k => monthStepOk _ (k + 1)) _ (m - 1) _);
      (vm_compute; reflexivity) || lia. }
  unfold monthStepOk in K. unfold leapAdj, daysIn.
  rewrite !andb_true_iff, !Z.leb_le, Z.eqb_eq in K. lia.
Qed.

Lemma offset_mono (y a b : Z) :
  0 <= a <= b -> b <= 12 ->
  daysBefore a + leapAdj y (a + 1) <= daysBefore b + leapAdj y (b + 1)
  /\ daysBefore 12 + leapAdj y 13 = yearLen y.
Proof.
  intros H1 H2.
  assert (K : offsetMono (isLeap y) a = true).
  { destruct (isLeap y);
      apply (allBelow_spec 13); (vm_compute; reflexivity) || lia. }
  unfold offsetMono in K. rewrite andb_true_iff, Z.eqb_eq in K.
  destruct K as [K1 K2].
  pose proof (allBelow_spec 13 _ K1 b) as K3. cbv beta in K3.
  rewrite orb_true_iff, Z.ltb_lt, Z.leb_le in K3.
  unfold leapAdj, yearLen. split; [lia | exact K2].
Qed.

(** The first of a later month comes after the last day of an earlier one. *)
Lemma monthStart_mono (y1 m1 y2 m2 : Z) :
  1 <= m1 <= 12 -> 1 <= m2 <= 12 ->
  12 * y1 + m1 < 12 * y2 + m2 ->
  monthStart y1 m1 + daysIn m1 y1 <= monthStart y2 m2.
Proof.
  intros H1 H2 H.
  destruct (monthStep y1 m1 H1) as (E & _ & _).
  unfold monthStart.
  destruct (Z.eq_dec y1 y2) as [->|N].
  - destruct (offset_mono y2 m1 (m2 - 1)) as [K _]; try lia.
    replace (m2 - 1 + 1) with m2 in K by lia. lia.
  - assert (Hy : y1 + 1 <= y2) by lia.
    destruct (offset_mono y1 m1 12) as [K1 K2]; try lia.
    change (12 + 1) with 13 in K1.
    destruct (monthStep y2 m2 H2) as (_ & _ & P).
    pose proof (daysSinceEpoch_succ y1) as S1.
    destruct (Z.eq_dec (y1 + 1) y2) as [<-|N2]; [lia|].
    pose proof (daysSinceEpoch_mono (y1 + 1) y2 ltac:(lia)). lia.
Qed.

(** [Date] for any month number, through the normalised month. *)
Lemma Date_norm (y mo d h mi s ns : Z) :
  Date y mo d h mi s ns =
  ((monthStart (y + (mo - 1) / 12) ((mo - 1) mod 12 + 1) + (d - 1)) * 86400
   + h * 3600 + mi * 60 + s) * 1000000000 + ns.
Proof.
  unfold Date, norm, monthStart, leapAdj, nsPerSecond, secondsPerDay.
  replace ((mo - 1) mod 12 + 1 - 1) with ((mo - 1) mod 12) by lia.
  generalize (daysSinceEpoch (y + (mo - 1) / 12)) (daysBefore ((mo - 1) mod 12))
    (if isLeap (y + (mo - 1) / 12) && (3 <=? (mo - 1) mod 12 + 1) then 1 else 0).
  intros A B C. Z.div_mod_to_equations. lia.
Qed.

Lemma Date_month_lt (y1 mo1 y2 mo2 d h mi s ns : Z) :
  12 * y1 + mo1 < 12 * y2 + mo2 ->
  Date y1 mo1 d h mi s ns + 28 * nsPerDay <= Date y2 mo2 d h mi s ns.
Proof.
  intros H. rewrite !Date_norm.
  assert (M : monthStart (y1 + (mo1 - 1) / 12) ((mo1 - 1) mod 12 + 1)
              + daysIn ((mo1 - 1) mod 12 + 1) (y1 + (mo1 - 1) / 12)
              <= monthStart (y2 + (mo2 - 1) / 12) ((mo2 - 1) mod 12 + 1)).
  { apply monthStart_mono; Z.div_mod_to_equations; lia. }
  assert (D : 28 <= daysIn ((mo1 - 1) mod 12 + 1) (y1 + (mo1 - 1) / 12)).
  { apply monthStep. Z.div_mod_to_equations; lia. }
  unfold nsPerDay. lia.
Qed.

(** Adding months or years moves the instant forward by 28 days at least. *)
Lemma AddDate_months_lt (n : Z) (t : Time) :
  1 <= n -> t + 28 * nsPerDay <= AddDate 0 n 0 t.
Proof.
  intros H. pose proof (Date_dateOf t) as E. revert E.
  unfold AddDate, Year, Month, Day.
  destruct (dateOf t) as [[y m] d]. cbn [fst snd]. intros E.
  rewrite !Z.add_0_r.
  pose proof (Date_month_lt y m y (m + n) d (Hour t) (Minute t) (Second t)
                (Nanosecond t) ltac:(lia)) as K.
  rewrite E in K. exact K.
Qed.

Lemma AddDate_years_lt (n : Z) (t : Time) :
  1 <= n -> t + 28 * nsPerDay <= AddDate n 0 0 t.
Proof.
  intros H. pose proof (Date_dateOf t) as E. revert E.
  unfold AddDate, Year, Month, Day.
  destruct (dateOf t) as [[y m] d]. cbn [fst snd]. intros E.
  rewrite !Z.add_0_r.
  pose proof (Date_month_lt y m (y + n) m d (Hour t) (Minute t) (Second t)
                (Nanosecond t) ltac:(lia)) as K.
  rewrite E in K. exact K.
Qed.

Lemma Weekday_days (k : Z) (t : Time) :
  Weekday (t + k * nsPerDay) = (Weekday t + k) mod 7.
Proof.
  unfold Weekday, absDays, nsPerDay.
  rewrite Z.div_add by lia. Z.div_mod_to_equations. lia.
Qed.

Lemma Weekday_range (t : Time) : 0 <= Weekday t < 7.
Proof. unfold Weekday. apply Z.mod_pos_bound. lia. Qed.

End Calendar.

(** ** Scoped deletion *)

Section Delete.

Lemma keepLoop_filter (keep : TodoItem -> bool) (its acc : list TodoItem) :
  keepLoop keep its acc = (acc ++ filter keep its)%list.
Proof.
  revert acc. induction its as [|i r IH]; intros acc; cbn.
  - now rewrite app_nil_r.
  - rewrite IH. destruct (keep i); [rewrite <- app_assoc|]; reflexivity.
Qed.

Lemma findItem_spec (id : string) (its : list TodoItem) (k : nat) :
  findItem id its = Some k ->
  exists it, nth_error its k = Some it /\ ID it = id
             /\ forall j it', (j < k)%nat -> nth_error its j = Some it' -> ID it' <> id.
Proof.
  revert k. induction its as [|i r IH]; intros k; cbn; [discriminate|].
  destruct (ID i =? id) eqn:E.
  - intros [= <-]. exists i. apply String.eqb_eq in E. repeat split; auto.
    intros j it' Hj. lia.
  - destruct (findItem id r) as [k'|]; [|discriminate].
    intros [= <-]. destruct (IH k' eq_refl) as (it & H1 & H2 & H3).
    exists it. repeat split; auto.
    intros [|j] it' Hj; cbn.
    + intros [= <-]. now apply String.eqb_neq.
    + apply H3. lia.
Qed.

Lemma findItem_none (id : string) (its : list TodoItem) :
  findItem id its = None -> forall it, In it its -> ID it <> id.
Proof.
  induction its as [|i r IH]; cbn; [tauto|].
  destruct (ID i =? id) eqn:E; [discriminate|].
  destruct (findItem id r); [discriminate|].
  intros _ it [<-|H]; [now apply String.eqb_neq | now apply IH].
Qed.

Lemma items_finish (a : App) : items (finish a) = items a.
Proof. reflexivity. Qed.

(** C1.  Scoped delete.  With [ThisOnly] the store keeps exactly the items
    whose identity differs from the target's, unchanged and in order.  For a
    target in a series, [All] keeps exactly the items of other series, and
    [ThisAndFuture] exactly the items of other series together with those
    of the target's series that start before the target.  For a target
    outside any series every scope is [ThisOnly]. *)
Theorem C1_scoped_delete (a : App) (targetID : string) (k : nat)
    (target : TodoItem) :
  findItem targetID (items a) = Some k ->
  nth_error (items a) k = Some target ->
  ID target = targetID
  /\ items (performSmartDelete targetID (Some ThisOnly) a)
     = filter (fun i => negb (ID i =? targetID)) (items a)
  /\ (SeriesID target = "" ->
      forall sc,
        items (performSmartDelete targetID (Some sc) a)
        = items (performSmartDelete targetID (Some ThisOnly) a))
  /\ (SeriesID target <> "" ->
      items (performSmartDelete targetID (Some All) a)
      = filter (fun i => negb (SeriesID i =? SeriesID target)) (items a)
      /\ items (performSmartDelete targetID (Some ThisAndFuture) a)
         = filter (fun i => negb (SeriesID i =? SeriesID target)
                            || (startTime i <? startTime target)%Z)
             (items a)).
Proof.
  intros Hf Hn.
  destruct (findItem_spec _ _ _ Hf) as (it & Hit & Hid & _).
  rewrite Hn in Hit. injection Hit as <-.
  split; [exact Hid|].
  unfold performSmartDelete. rewrite Hf, Hn.
  destruct (SeriesID target =? "") eqn:E.
  - apply String.eqb_eq in E. split; [|split].
    + rewrite items_finish. cbn. unfold deleteThisOnly.
      now rewrite keepLoop_filter.
    + intros _ sc. reflexivity.
    + intros N. contradiction.
  - apply String.eqb_neq in E. split; [|split].
    + rewrite items_finish. cbn. unfold deleteThisOnly.
      now rewrite keepLoop_filter.
    + intros N. contradiction.
    + intros _. split.
      * rewrite items_finish. cbn. unfold deleteAll. now rewrite keepLoop_filter.
      * rewrite items_finish. cbn. unfold deleteThisAndFuture.
        now rewrite keepLoop_filter.
Qed.

Lemma C1_scoped_delete_witness :
  let a := sampleApp sampleSeries sampleSidebar in
  map ID (items (performSmartDelete "3" (Some ThisAndFuture) a)) = ["1"; "2"; "6"]
  /\ map ID (items (performSmartDelete "3" (Some All) a)) = ["6"]
  /\ map ID (items (performSmartDelete "3" (Some ThisOnly) a))
     = ["1"; "2"; "4"; "5"; "6"].
Proof.
  intros a.
  destruct (C1_scoped_delete a "3" 2 (task "3" "Gym" "2024-03-18 18:00" "s-1")
              eq_refl eq_refl) as (_ & H1 & _ & H2).
  destruct (H2 ltac:(discriminate)) as [H3 H4].
  rewrite H1, H3, H4. vm_compute. repeat split.
Defined.

End Delete.

(** ** Recurrence expansion *)

Section Expansion.
Open Scope Z_scope.

(** The weekday search ends within seven days, on the first day after
    [t] that falls on [target]. *)
Lemma nextWeekday_from (fuel : nat) (k : Z) (t : Time) (target : Z) :
  let j := (target - Weekday t - 1) mod 7 + 1 in
  0 <= target < 7 -> 0 <= k < j -> j - k <= Z.of_nat fuel ->
  nextWeekday fuel k t target = Some (t + j * nsPerDay).
Proof.
  intros j Ht. revert k. induction fuel as [|fuel IH]; intros k Hk Hf.
  - lia.
  - cbn [nextWeekday].
    assert (Hj : 1 <= j <= 7) by (subst j; Z.div_mod_to_equations; lia).
    assert (W : wrap64 (k + 1) = k + 1).
    { unfold wrap64. Z.div_mod_to_equations. lia. }
    rewrite W, AddDate_days, Weekday_days.
    pose proof (Weekday_range t) as Hw.
    destruct (Z.eq_dec (k + 1) j) as [E|N].
    + replace ((Weekday t + (k + 1)) mod 7 =? target) with true.
      * now rewrite E.
      * symmetry. apply Z.eqb_eq. rewrite E. subst j.
        Z.div_mod_to_equations. lia.
    + replace ((Weekday t + (k + 1)) mod 7 =? target) with false.
      * apply IH; lia.
      * symmetry. apply Z.eqb_neq. subst j.
        Z.div_mod_to_equations. lia.
Qed.

Lemma targetWeekdayOf_range (d : string) : 0 <= targetWeekdayOf d < 7.
Proof.
  unfold targetWeekdayOf.
  repeat match goal with |- context [if ?c then _ else _] => destruct c end; lia.
Qed.

Lemma nextWeekday_7 (fuel : nat) (t : Time) (target : Z) :
  0 <= target < 7 -> (7 <= fuel)%nat ->
  nextWeekday fuel 0 t target
  = Some (t + ((target - Weekday t - 1) mod 7 + 1) * nsPerDay).
Proof.
  intros Ht Hf. apply nextWeekday_from; try assumption.
  - Z.div_mod_to_equations; lia.
  - Z.div_mod_to_equations; lia.
Qed.

(** With fuel for seven passes the step never stays in the inner loop. *)
Lemma advance_total (fuel : nat) (s : Sidebar) (t : Time) :
  (7 <= fuel)%nat -> exists t', advance fuel s t = Some t'.
Proof.
  intros Hf. unfold advance.
  destruct (recModeRadio s =? "Interval")%string; [eexists; reflexivity|].
  rewrite (nextWeekday_7 fuel t _ (targetWeekdayOf_range _) Hf).
  eexists; reflexivity.
Qed.

Lemma computed_total (fuel : nat) (s : Sidebar) (t0 : Time) (k : nat) :
  (7 <= fuel)%nat -> exists t, computed fuel s t0 k = Some t.
Proof.
  intros Hf. induction k as [|k [t IH]]; cbn.
  - eexists; reflexivity.
  - rewrite IH. now apply advance_total.
Qed.

Lemma computed_shift (fuel : nat) (s : Sidebar) (cur t : Time) (k : nat) :
  advance fuel s cur = Some t ->
  computed fuel s cur (S k) = computed fuel s t k.
Proof.
  intros H. induction k as [|k IH].
  - cbn. exact H.
  - change (computed fuel s cur (S (S k)))
      with (match computed fuel s cur (S k) with
            | Some u => advance fuel s u | None => None end).
    rewrite IH. reflexivity.
Qed.

Lemma expandLoop_S (fuel r : nat) (s : Sidebar) (now : nat -> Z) (tick : nat)
    (baseItem : TodoItem) (duration : Duration) (limitDate cur : Time)
    (count : Z) :
  expandLoop fuel (S r) s now tick baseItem duration limitDate cur count
  = match advance fuel s cur with
    | None => None
    | Some t =>
        if After t limitDate then Some []
        else
          match expandLoop fuel r s now (S tick) baseItem duration limitDate t
                  (count + 1) with
          | None => None
          | Some rest =>
              Some ((t, generatedItem baseItem (now tick) count t duration)
                      :: rest)
          end
    end.
Proof. reflexivity. Qed.

(** The loop emits the computed dates one after the other, for as long as
    they are not after the limit and fewer than [remaining] were emitted. *)
Lemma expandLoop_spec (fuel remaining : nat) (s : Sidebar) (now : nat -> Z)
    (tick : nat) (baseItem : TodoItem) (duration : Duration)
    (limitDate cur : Time) (count : Z) :
  (7 <= fuel)%nat ->
  exists gen,
    expandLoop fuel remaining s now tick baseItem duration limitDate cur count
    = Some gen
    /\ (List.length gen <= remaining)%nat
    /\ (forall i, (i < List.length gen)%nat ->
        exists t it,
          nth_error gen i = Some (t, it)
          /\ computed fuel s cur (S i) = Some t
          /\ After t limitDate = false
          /\ Start it = Format layoutItem t
          /\ End_ it = Format layoutItem (Add t duration)
          /\ Title it = Title baseItem /\ Type_ it = Type_ baseItem
          /\ GroupID it = GroupID baseItem /\ SeriesID it = SeriesID baseItem)
    /\ ((List.length gen < remaining)%nat ->
        exists t, computed fuel s cur (S (List.length gen)) = Some t
                  /\ After t limitDate = true).
Proof.
  intros Hf. revert tick cur count.
  induction remaining as [|r IH]; intros tick cur count.
  - exists []. cbn [expandLoop List.length]. split; [reflexivity|].
    split; [lia|]. split; intros; lia.
  - rewrite expandLoop_S.
    destruct (advance_total fuel s cur Hf) as [t Ht]. rewrite Ht.
    destruct (After t limitDate) eqn:EA.
    + exists []. cbn [List.length]. split; [reflexivity|].
      split; [lia|]. split; [intros i Hi; lia|].
      intros _. exists t. cbn [computed List.length]. now rewrite Ht.
    + destruct (IH (S tick) t (count + 1)) as (rest & E & Hl & Hi & Hs).
      rewrite E.
      exists ((t, generatedItem baseItem (now tick) count t duration) :: rest).
      split; [reflexivity|]. cbn [List.length].
      split; [lia|]. split.
      * intros [|i] Hlt.
        -- exists t, (generatedItem baseItem (now tick) count t duration).
           cbn [nth_error]. split; [reflexivity|].
           cbn [computed]. rewrite Ht.
           repeat split; assumption.
        -- destruct (Hi i ltac:(lia)) as (t' & it & H1 & H2 & H3).
           exists t', it. cbn [nth_error]. split; [exact H1|].
           split; [|exact H3].
           now rewrite (computed_shift _ _ _ _ (S i) Ht).
      * intros Hlt. destruct (Hs ltac:(lia)) as (t' & H1 & H2).
        exists t'. split; [|exact H2].
        now rewrite (computed_shift _ _ _ _ (S (List.length rest)) Ht).
Qed.

Lemma expansion_total (fuel : nat) (a : App) (gid sVal eVal : string)
    (ty : ItemType) :
  (7 <= fuel)%nat ->
  exists base gen, expansion fuel a gid sVal eVal ty = Some (base, gen).
Proof.
  intros Hf. unfold expansion. destruct (recCheck (sb a)).
  - match goal with
    | |- context [expandLoop fuel 100 ?s ?now ?tick ?b ?d ?l ?c ?n] =>
        destruct (expandLoop_spec fuel 100 s now tick b d l c n Hf)
          as (gen & E & _); rewrite E
    end.
    eexists _, _. reflexivity.
  - eexists _, _. reflexivity.
Qed.

(** C2.  Expansion ends (given fuel for the seven passes of the weekday
    search), emits at most 100 occurrences beyond the base, and every
    emitted one is the next computed date and is not after the start of the
    base plus one year.  Generation that ends before the hundredth
    occurrence ends on a computed date strictly after that limit; a
    computed date that is exactly the limit, reached with no date after the
    limit before it, is emitted. *)
Theorem C2_expansion_bounded (fuel : nat) (a : App) (gid sVal eVal : string)
    (ty : ItemType) :
  (7 <= fuel)%nat ->
  let t0 := orZero (Parse layoutItem sVal) in
  let limit := AddDate 1 0 0 t0 in
  exists base gen,
    expansion fuel a gid sVal eVal ty = Some (base, gen)
    /\ (List.length gen <= 100)%nat
    /\ (forall i, (i < List.length gen)%nat ->
        exists t it,
          nth_error gen i = Some (t, it)
          /\ computed fuel (sb a) t0 (S i) = Some t
          /\ t <= limit
          /\ Start it = Format layoutItem t)
    /\ (recCheck (sb a) = true -> (List.length gen < 100)%nat ->
        exists t, computed fuel (sb a) t0 (S (List.length gen)) = Some t
                  /\ limit < t)
    /\ (recCheck (sb a) = true ->
        forall k, (k < 100)%nat ->
          computed fuel (sb a) t0 (S k) = Some limit ->
          (forall j t, (j < k)%nat ->
             computed fuel (sb a) t0 (S j) = Some t -> t <= limit) ->
          exists it, nth_error gen k = Some (limit, it)).
Proof.
  intros Hf t0 limit. unfold expansion. fold t0. fold limit.
  destruct (recCheck (sb a)) eqn:R.
  - match goal with
    | |- context [expandLoop fuel 100 ?s ?now ?tick ?b ?d ?l ?c ?n] =>
        destruct (expandLoop_spec fuel 100 s now tick b d l c n Hf)
          as (gen & E & Hl & Hi & Hs); rewrite E
    end.
    eexists _, gen. split; [reflexivity|]. split; [exact Hl|].
    assert (Hi' : forall i, (i < List.length gen)%nat ->
              exists t it, nth_error gen i = Some (t, it)
                /\ computed fuel (sb a) t0 (S i) = Some t /\ t <= limit
                /\ Start it = Format layoutItem t).
    { intros i Hlt. destruct (Hi i Hlt) as (t & it & H1 & H2 & H3 & H4 & _).
      exists t, it. unfold After in H3. apply Z.ltb_ge in H3. auto. }
    assert (Hs' : (List.length gen < 100)%nat ->
              exists t, computed fuel (sb a) t0 (S (List.length gen)) = Some t
                        /\ limit < t).
    { intros Hlt. destruct (Hs Hlt) as (t & H1 & H2).
      exists t. unfold After in H2. apply Z.ltb_lt in H2. auto. }
    split; [exact Hi'|]. split; [intros _; exact Hs'|].
    intros _ k Hk Hc Hprev.
    destruct (Nat.lt_ge_cases k (List.length gen)) as [Hlt|Hge].
    + destruct (Hi' k Hlt) as (t & it & H1 & H2 & _).
      rewrite Hc in H2. injection H2 as <-. now exists it.
    + exfalso. destruct (Hs' ltac:(lia)) as (t & H1 & H2).
      destruct (Nat.eq_dec (List.length gen) k) as [Ek|Nk].
      * rewrite Ek, Hc in H1. injection H1 as <-. lia.
      * pose proof (Hprev (List.length gen) t ltac:(lia) H1). lia.
  - eexists _, []. split; [reflexivity|]. cbn [List.length].
    split; [lia|]. split; [intros i Hi; lia|].
    split; intros; discriminate.
Qed.

Lemma C2_expansion_bounded_witness :
  let a := sampleApp [] (recurringSidebar "Interval" "1" "Year(s)" "Every" "Monday") in
  exists base gen,
    expansion 7 a "g-1" "2024-03-05 09:00" "2024-03-05 09:00" TypeTask
    = Some (base, gen)
    /\ (List.length gen <= 100)%nat.
Proof.
  intros a.
  destruct (C2_expansion_bounded 7 a "g-1" "2024-03-05 09:00" "2024-03-05 09:00"
              TypeTask (le_n 7)) as (base & gen & E & L & _).
  exists base, gen. split; assumption.
Defined.

(** A yearly rule from 2024-03-05 09:00: the one computed date within the
    window is the limit itself, and it is emitted. *)
Example expansion_on_the_limit :
  let a := sampleApp [] (recurringSidebar "Interval" "1" "Year(s)" "Every" "Monday") in
  option_map (fun r => map fst (snd r))
    (expansion 7 a "g-1" "2024-03-05 09:00" "2024-03-05 09:00" TypeTask)
  = Some [Date 2025 3 5 9 0 0 0]
  /\ AddDate 1 0 0 (Date 2024 3 5 9 0 0 0) = Date 2025 3 5 9 0 0 0.
Proof. vm_compute. split; reflexivity. Qed.

(** *** Order of the generated dates *)

Lemma wrap64_small (z : Z) : minInt <= z <= maxInt -> wrap64 z = z.
Proof.
  unfold wrap64, minInt, maxInt. intros H. Z.div_mod_to_equations. lia.
Qed.

Lemma intervalCount_pos (s : Sidebar) : 1 <= intervalCount s.
Proof.
  unfold intervalCount. destruct (Z.ltb_spec (Atoi (recNumEntry s)) 1); lia.
Qed.

(** Under a rule that moves forward, each step is strictly later. *)
Lemma advance_forward (fuel : nat) (s : Sidebar) (t t' : Time) :
  (7 <= fuel)%nat -> forwardRule s ->
  advance fuel s t = Some t' -> t < t'.
Proof.
  intros Hf Hr. unfold advance. fold (intervalCount s).
  pose proof (intervalCount_pos s) as Hn.
  destruct (recModeRadio s =? "Interval")%string eqn:Em.
  - apply String.eqb_eq in Em. specialize (Hr Em).
    intros [= <-].
    destruct Hr as [U|[U|[U|[U Hw]]]]; rewrite U; cbn [String.eqb Ascii.eqb Bool.eqb].
    + rewrite AddDate_days. unfold nsPerDay. lia.
    + pose proof (AddDate_months_lt (intervalCount s) t Hn).
      unfold nsPerDay in *. lia.
    + pose proof (AddDate_years_lt (intervalCount s) t Hn).
      unfold nsPerDay in *. lia.
    + rewrite wrap64_small by (unfold minInt, maxInt in *; lia).
      rewrite AddDate_days. unfold nsPerDay. lia.
  - rewrite (nextWeekday_7 fuel t _ (targetWeekdayOf_range _) Hf).
    intros [= <-].
    assert (1 <= (targetWeekdayOf (recDaySelect s) - Weekday t - 1) mod 7 + 1)
      by (Z.div_mod_to_equations; lia).
    destruct (recOrdinalSelect s =? "Every Other")%string;
      rewrite ?AddDate_days; unfold nsPerDay; lia.
Qed.

Lemma expandLoop_increasing (fuel remaining : nat) (s : Sidebar)
    (now : nat -> Z) (tick : nat) (baseItem : TodoItem) (duration : Duration)
    (limitDate cur : Time) (count : Z) (gen : list (Time * TodoItem)) :
  (forall t t', advance fuel s t = Some t' -> t < t') ->
  expandLoop fuel remaining s now tick baseItem duration limitDate cur count
  = Some gen ->
  increasing (cur :: map fst gen).
Proof.
  intros Ha. revert tick cur count gen.
  induction remaining as [|r IH]; intros tick cur count gen.
  - cbn [expandLoop]. intros [= <-]. exact I.
  - rewrite expandLoop_S.
    destruct (advance fuel s cur) as [t|] eqn:Et; [|discriminate].
    destruct (After t limitDate); [intros [= <-]; exact I|].
    destruct (expandLoop fuel r s now (S tick) baseItem duration limitDate t
                (count + 1)) as [rest|] eqn:Er; [|discriminate].
    intros [= <-]. cbn [map fst]. split.
    + now apply Ha.
    + now apply (IH _ _ _ _ Er).
Qed.

Lemma increasing_head (a : Time) (l : list Time) :
  increasing (a :: l) -> forall x, In x l -> a < x.
Proof.
  revert a. induction l as [|b l IH]; intros a H x Hx; [destruct Hx|].
  destruct H as [Hab Hr]. destruct Hx as [<-|Hx]; [exact Hab|].
  pose proof (IH b Hr x Hx). lia.
Qed.

Lemma increasing_NoDup (l : list Time) : increasing l -> NoDup l.
Proof.
  induction l as [|a l IH]; intros H; constructor.
  - intros Hin. pose proof (increasing_head a l H a Hin). lia.
  - apply IH. destruct l; [exact I | apply H].
Qed.

Lemma expandLoop_items (fuel remaining : nat) (s : Sidebar)
    (now : nat -> Z) (tick : nat) (baseItem : TodoItem) (duration : Duration)
    (limitDate cur : Time) (count : Z) (gen : list (Time * TodoItem)) :
  expandLoop fuel remaining s now tick baseItem duration limitDate cur count
  = Some gen ->
  forall t it, In (t, it) gen ->
    exists n c, it = generatedItem baseItem n c t duration.
Proof.
  revert tick cur count gen.
  induction remaining as [|r IH]; intros tick cur count gen.
  - cbn [expandLoop]. intros [= <-] t it [].
  - rewrite expandLoop_S.
    destruct (advance fuel s cur) as [t|]; [|discriminate].
    destruct (After t limitDate); [intros [= <-] ? ? []|].
    destruct (expandLoop fuel r s now (S tick) baseItem duration limitDate t
                (count + 1)) as [rest|] eqn:Er; [|discriminate].
    intros [= <-] t' it [[= <- <-]|Hin].
    + eexists _, _. reflexivity.
    + exact (IH _ _ _ _ Er t' it Hin).
Qed.

Lemma expansion_inv (fuel : nat) (a : App) (gid sVal eVal : string)
    (ty : ItemType) (base : TodoItem) (gen : list (Time * TodoItem)) :
  expansion fuel a gid sVal eVal ty = Some (base, gen) ->
  Start base = sVal /\ End_ base = eVal /\ Type_ base = ty
  /\ GroupID base = gid /\ Title base = sbTitleEntry (sb a)
  /\ (if recCheck (sb a)
      then exists n,
        expandLoop fuel 100 (sb a) (clock a) n base
          (Sub (orZero (Parse layoutItem eVal)) (orZero (Parse layoutItem sVal)))
          (AddDate 1 0 0 (orZero (Parse layoutItem sVal)))
          (orZero (Parse layoutItem sVal)) 0 = Some gen
      else gen = []).
Proof.
  unfold expansion. destruct (recCheck (sb a)).
  - match goal with
    | |- context [expandLoop ?f ?r ?s ?now ?tick ?b ?d ?l ?c ?n] =>
        destruct (expandLoop f r s now tick b d l c n) as [g|] eqn:E
    end; [|discriminate].
    intros [= <- <-]. repeat split. eexists. exact E.
  - intros [= <- <-]. repeat split.
Qed.




(** *** Weekday rules *)

Lemma advance_weekday (fuel : nat) (s : Sidebar) (t t' : Time) :
  (7 <= fuel)%nat -> recModeRadio s <> "Interval"%string ->
  advance fuel s t = Some t' ->
  Weekday t' = targetWeekdayOf (recDaySelect s)
  /\ (Weekday t = targetWeekdayOf (recDaySelect s) -> t' = t + weekdayStep s).
Proof.
  intros Hf Hm. unfold advance, weekdayStep.
  apply String.eqb_neq in Hm. rewrite Hm.
  pose proof (targetWeekdayOf_range (recDaySelect s)) as Hr.
  rewrite (nextWeekday_7 fuel t _ Hr Hf).
  pose proof (Weekday_range t) as Hw.
  intros [= <-].
  set (tw := targetWeekdayOf (recDaySelect s)) in *.
  assert (J : (tw - Weekday t - 1) mod 7 + 1 = 7 \/ Weekday t <> tw)
    by (Z.div_mod_to_equations; lia).
  assert (W : (Weekday t + ((tw - Weekday t - 1) mod 7 + 1)) mod 7 = tw)
    by (Z.div_mod_to_equations; lia).
  destruct (recOrdinalSelect s =? "Every Other")%string;
    rewrite ?AddDate_days, ?Weekday_days; split.
  - rewrite W. Z.div_mod_to_equations. lia.
  - intros E. unfold nsPerDay. lia.
  - exact W.
  - intros E. unfold nsPerDay. lia.
Qed.

Lemma expandLoop_weekday (fuel remaining : nat) (s : Sidebar)
    (now : nat -> Z) (tick : nat) (baseItem : TodoItem) (duration : Duration)
    (limitDate cur : Time) (count : Z) (gen : list (Time * TodoItem)) :
  (7 <= fuel)%nat -> recModeRadio s <> "Interval"%string ->
  expandLoop fuel remaining s now tick baseItem duration limitDate cur count
  = Some gen ->
  Forall (fun t => Weekday t = targetWeekdayOf (recDaySelect s)) (map fst gen)
  /\ stepsBy (weekdayStep s) (map fst gen)
  /\ (Weekday cur = targetWeekdayOf (recDaySelect s) ->
      stepsBy (weekdayStep s) (cur :: map fst gen)).
Proof.
  intros Hf Hm. revert tick cur count gen.
  induction remaining as [|r IH]; intros tick cur count gen.
  - cbn [expandLoop]. intros [= <-]. cbn. auto.
  - rewrite expandLoop_S.
    destruct (advance fuel s cur) as [t|] eqn:Et; [|discriminate].
    destruct (advance_weekday _ _ _ _ Hf Hm Et) as [Hw Hstep].
    destruct (After t limitDate); [intros [= <-]; cbn; auto|].
    destruct (expandLoop fuel r s now (S tick) baseItem duration limitDate t
                (count + 1)) as [rest|] eqn:Er; [|discriminate].
    intros [= <-]. cbn [map fst].
    destruct (IH _ _ _ _ Er) as (H1 & H2 & H3).
    split; [constructor; assumption|].
    split; [exact (H3 Hw)|].
    intros Hc. split; [exact (Hstep Hc) | exact (H3 Hw)].
Qed.

(** C4.  Under a weekday rule every generated date falls on the weekday
    chosen, and each generated date is exactly 7 days after the one before
    it, 14 days with "Every Other". *)
Theorem C4_weekday_rule (fuel : nat) (a : App) (gid sVal eVal : string)
    (ty : ItemType) (base : TodoItem) (gen : list (Time * TodoItem)) :
  (7 <= fuel)%nat ->
  recModeRadio (sb a) <> "Interval"%string ->
  expansion fuel a gid sVal eVal ty = Some (base, gen) ->
  (forall t it, In (t, it) gen ->
     Weekday t = targetWeekdayOf (recDaySelect (sb a))
     /\ Start it = Format layoutItem t)
  /\ (recOrdinalSelect (sb a) = "Every Other"%string ->
      stepsBy (14 * nsPerDay) (map fst gen))
  /\ (recOrdinalSelect (sb a) <> "Every Other"%string ->
      stepsBy (7 * nsPerDay) (map fst gen)).
Proof.
  intros Hf Hm He.
  destruct (expansion_inv _ _ _ _ _ _ _ _ He) as (_ & _ & _ & _ & _ & Hg).
  destruct (recCheck (sb a)).
  - destruct Hg as [n Hg].
    destruct (expandLoop_weekday _ _ _ _ _ _ _ _ _ _ _ Hf Hm Hg) as (H1 & H2 & _).
    split; [|split].
    + intros t it Hin. split.
      * rewrite Forall_forall in H1. apply H1.
        apply in_map_iff. exists (t, it). auto.
      * destruct (expandLoop_items _ _ _ _ _ _ _ _ _ _ _ Hg t it Hin)
          as (n' & c & ->). reflexivity.
    + intros E. unfold weekdayStep in H2. rewrite E in H2. exact H2.
    + intros E. unfold weekdayStep in H2. apply String.eqb_neq in E.
      rewrite E in H2. exact H2.
  - subst gen. split; [intros ? ? []|]. split; intros; exact I.
Qed.

Lemma C4_weekday_rule_witness :
  let a := sampleApp []
             (recurringSidebar "Specific Day" "1" "Week(s)" "Every Other" "Friday") in
  match expansion 7 a "g-1" "2024-03-05 09:00" "2024-03-05 09:00" TypeTask with
  | Some (base, gen) => stepsBy (14 * nsPerDay) (map fst gen)
  | None => False
  end.
Proof.
  intros a.
  destruct (expansion 7 a "g-1" "2024-03-05 09:00" "2024-03-05 09:00" TypeTask)
    as [[base gen]|] eqn:E.
  - refine (proj1 (proj2 (C4_weekday_rule 7 a _ _ _ _ base gen (le_n 7) _ E))
              eq_refl).
    intros H; discriminate H.
  - vm_compute in E. discriminate E.
Defined.

(** With "Every" and Friday, from Tuesday 2024-03-05: the Fridays that
    follow.  With "Every Other" the first is a week later still. *)
Example weekday_rule_sample :
  let every := sampleApp []
                 (recurringSidebar "Specific Day" "1" "Week(s)" "Every" "Friday") in
  let other := sampleApp []
                 (recurringSidebar "Specific Day" "1" "Week(s)" "Every Other" "Friday") in
  option_map (fun r => firstn 3 (map (fun p => Start (snd p)) (snd r)))
    (expansion 7 every "g-1" "2024-03-05 09:00" "2024-03-05 09:00" TypeTask)
  = Some ["2024-03-08 09:00"; "2024-03-15 09:00"; "2024-03-22 09:00"]%string
  /\ option_map (fun r => firstn 3 (map (fun p => Start (snd p)) (snd r)))
       (expansion 7 other "g-1" "2024-03-05 09:00" "2024-03-05 09:00" TypeTask)
     = Some ["2024-03-15 09:00"; "2024-03-29 09:00"; "2024-04-12 09:00"]%string.
Proof. vm_compute. split; reflexivity. Qed.

End Expansion.

(** ** Day matching *)

Section Matching.
Open Scope Z_scope.

(** Two dates of the calendar with the same day number are the same date. *)
Lemma civilDays_inj (y1 m1 d1 y2 m2 d2 : Z) :
  validDate y1 m1 d1 -> validDate y2 m2 d2 ->
  civilDays y1 m1 d1 = civilDays y2 m2 d2 ->
  y1 = y2 /\ m1 = m2 /\ d1 = d2.
Proof.
  intros [Hm1 Hd1] [Hm2 Hd2]. unfold civilDays. intros E.
  destruct (Z.lt_trichotomy (12 * y1 + m1) (12 * y2 + m2)) as [L|[Q|G]].
  - pose proof (monthStart_mono y1 m1 y2 m2 Hm1 Hm2 L). lia.
  - assert (y1 = y2) by lia. assert (m1 = m2) by lia. subst. lia.
  - pose proof (monthStart_mono y2 m2 y1 m1 Hm2 Hm1 ltac:(lia)). lia.
Qed.

Lemma dayStartOf_civil (y m d : Z) :
  1 <= m <= 12 -> dayStartOf y m d = civilDays y m d * nsPerDay.
Proof. intros H. unfold dayStartOf. rewrite Date_civil by assumption. unfold nsPerDay. lia. Qed.

Lemma dayEndOf_civil (y m d : Z) :
  1 <= m <= 12 ->
  dayEndOf y m d = civilDays y m d * nsPerDay + 86399 * nsPerSecond.
Proof.
  intros H. unfold dayEndOf. rewrite Date_civil by assumption.
  unfold nsPerDay, nsPerSecond. lia.
Qed.

(** C5.  An item is drawn in the cell of a day exactly when its start is
    before the end of the day and its end is after, or at, the start of the
    day.  The task of 2024-03-05 09:00 is drawn on that day and on no other
    day of the calendar; the event from 2024-03-05 22:00 to 2024-03-06
    01:00 is drawn on both days. *)
Theorem C5_matches_day (item : TodoItem) (dayStart dayEnd : Time) (y m d : Z) :
  validDate y m d ->
  (matchesDay item dayStart dayEnd = true <->
   startTime item < dayEnd
   /\ (endTime item > dayStart \/ endTime item = dayStart))
  /\ (matchesDay sampleTask (dayStartOf y m d) (dayEndOf y m d) = true <->
      y = 2024 /\ m = 3 /\ d = 5)
  /\ matchesDay sampleEvent (dayStartOf 2024 3 5) (dayEndOf 2024 3 5) = true
  /\ matchesDay sampleEvent (dayStartOf 2024 3 6) (dayEndOf 2024 3 6) = true.
Proof.
  intros Hv. split; [|split; [|split; vm_compute; reflexivity]].
  - unfold matchesDay, Before, After, Equal.
    rewrite andb_true_iff, orb_true_iff, !Z.ltb_lt, Z.eqb_eq. lia.
  - unfold matchesDay, Before, After, Equal.
    rewrite andb_true_iff, orb_true_iff, !Z.ltb_lt, Z.eqb_eq.
    destruct Hv as [Hm Hd].
    rewrite dayStartOf_civil, dayEndOf_civil by assumption.
    change (startTime sampleTask) with (civilDays 2024 3 5 * nsPerDay + 9 * 3600 * nsPerSecond).
    change (endTime sampleTask) with (civilDays 2024 3 5 * nsPerDay + 9 * 3600 * nsPerSecond).
    split.
    + intros H.
      assert (E : civilDays y m d = civilDays 2024 3 5)
        by (unfold nsPerDay, nsPerSecond in H; lia).
      apply (civilDays_inj y m d 2024 3 5); [split; assumption | | exact E].
      split; [lia | vm_compute; split; intros K; discriminate K].
    + intros (-> & -> & ->). unfold nsPerDay, nsPerSecond. lia.
Qed.

Lemma C5_matches_day_witness :
  matchesDay sampleTask (dayStartOf 2024 3 6) (dayEndOf 2024 3 6) = false.
Proof.
  assert (V : validDate 2024 3 6)
    by (split; [lia | vm_compute; split; intros K; discriminate K]).
  destruct (C5_matches_day sampleTask 0 0 2024 3 6 V) as (_ & H & _).
  destruct (matchesDay sampleTask (dayStartOf 2024 3 6) (dayEndOf 2024 3 6));
    [|reflexivity].
  destruct (proj1 H eq_refl) as (_ & _ & K). discriminate K.
Defined.

End Matching.

(** ** Interchange *)

Section Interchange.

Lemma Some_eq {A : Type} (x y : A) : Some x = Some y -> x = y.
Proof. congruence. Qed.

Lemma importLoop_export (gs : list Group.t) (target : string) (now : nat -> Z)
    (its : list TodoItem) :
  forall (tick : nat) (count : Z),
  List.length (importLoop target now tick count (map (exportEvent gs) its))
  = List.length its
  /\ forall k item, nth_error its k = Some item ->
       exists imp,
         nth_error (importLoop target now tick count (map (exportEvent gs) its)) k
         = Some imp
         /\ importEvent target (now (tick + k)%nat) (count + Z.of_nat k)
              (exportEvent gs item) = Some imp.
Proof.
  induction its as [|i r IH]; intros tick count.
  - split; [reflexivity|]. intros [|k] item H; discriminate H.
  - cbn [map importLoop].
    change (importEvent target (now tick) count (exportEvent gs i))
      with (Some (mkItem ("imp-" ++ fmtInt (now tick) ++ "-" ++ fmtInt count)
              ("[" ++ gNameOf gs (GroupID i) ++ "] " ++ Title i)
              (Format layoutItem (importStart (Format layoutICalUtc (startTime i))))
              (Format layoutItem
                 (importEnd (importStart (Format layoutICalUtc (startTime i)))
                    (Some (Format layoutICalUtc (endTime i)))))
              (if negb (Equal
                          (importEnd (importStart (Format layoutICalUtc (startTime i)))
                             (Some (Format layoutICalUtc (endTime i))))
                          (importStart (Format layoutICalUtc (startTime i))))
                  && negb (IsZero
                             (importEnd (importStart (Format layoutICalUtc (startTime i)))
                                (Some (Format layoutICalUtc (endTime i)))))
               then TypeEvent else TypeTask)
              target "" false "")).
    destruct (IH (S tick) (count + 1)%Z) as [Hl Hn].
    split; [cbn [List.length]; now rewrite Hl|].
    intros [|k] item H.
    + apply Some_eq in H. subst item. eexists. split; [reflexivity|].
      rewrite Nat.add_0_r, Z.add_0_r. reflexivity.
    + destruct (Hn k item H) as (imp & H1 & H2).
      exists imp. split; [exact H1|].
      replace (tick + S k)%nat with (S tick + k)%nat by lia.
      replace (count + Z.of_nat (S k))%Z with (count + 1 + Z.of_nat k)%Z by lia.
      exact H2.
Qed.

(** C6 (amended).  Export followed by import yields one occurrence for each
    occurrence of the store, in the same order.  Its title is the original
    title behind the bracketed name of the original's group; it has no
    series identity, is not completed and sits in the first group.  Its
    start and end are what the importer reads off the exported timestamps,
    and it is an Event exactly when that end is not the zero time and
    differs from that start. *)
Theorem C6_round_trip (a : App) :
  List.length (roundTrip a) = List.length (items a)
  /\ forall k item, nth_error (items a) k = Some item ->
       exists imp,
         nth_error (roundTrip a) k = Some imp
         /\ Title imp = "[" ++ gNameOf (groups a) (GroupID item) ++ "] " ++ Title item
         /\ SeriesID imp = "" /\ Completed imp = false
         /\ GroupID imp = match groups a with g0 :: _ => Group.ID g0 | [] => "" end
         /\ let s := importStart (Format layoutICalUtc (startTime item)) in
            let e := importEnd s (Some (Format layoutICalUtc (endTime item))) in
            Start imp = Format layoutItem s
            /\ End_ imp = Format layoutItem e
            /\ Type_ imp = if negb (Equal e s) && negb (IsZero e)
                           then TypeEvent else TypeTask.
Proof.
  unfold roundTrip, exportICS.
  match goal with
  | |- context [importLoop ?g ?now ?tick ?c (map (exportEvent ?gs) ?its)] =>
      destruct (importLoop_export gs g now its tick c) as [Hl Hn]
  end.
  split; [exact Hl|]. intros k item H.
  destruct (Hn k item H) as (imp & H1 & H2).
  exists imp. split; [exact H1|].
  unfold importEvent, exportEvent in H2. cbn [summary dtstart dtend] in H2.
  apply Some_eq in H2. subst imp.
  cbn [Title SeriesID Completed GroupID Start End_ Type_].
  split; [reflexivity|]. split; [reflexivity|]. split; [reflexivity|].
  split; [reflexivity|]. split; [reflexivity|]. split; reflexivity.
Qed.

(** One event in the group "Work": the title comes back with the prefix,
    both timestamps come back as the zero time, and the event as a task. *)
Lemma C6_counterexample :
  let a := sampleApp [sampleEvent] sampleSidebar in
  match roundTrip a with
  | [imp] =>
      Title imp <> Title sampleEvent
      /\ Start imp <> Start sampleEvent
      /\ End_ imp <> End_ sampleEvent
      /\ Type_ imp <> Type_ sampleEvent
  | _ => False
  end.
Proof. vm_compute. repeat split; intros H; discriminate H. Qed.

Example round_trip_sample :
  map (fun i => (Title i, Start i, End_ i, Type_ i))
    (roundTrip (sampleApp [sampleEvent] sampleSidebar))
  = [("[Work] Night shift", "0001-01-01 00:00", "0001-01-01 00:00", "Task")]
  /\ map dtstart (exportICS (sampleApp [sampleEvent] sampleSidebar))
     = [Some "20240305T220000Z"].
Proof. vm_compute. split; reflexivity. Qed.

End Interchange.

(** ** Month and year steps past the end of a month *)

Section MonthEnd.
Open Scope Z_scope.

Lemma absDays_unique (t : Time) (cd h mi s ns : Z) :
  0 <= h < 24 -> 0 <= mi < 60 -> 0 <= s < 60 -> 0 <= ns < 1000000000 ->
  t = (cd * 86400 + h * 3600 + mi * 60 + s) * 1000000000 + ns ->
  absDays t = cd /\ Hour t = h /\ Minute t = mi /\ Second t = s
  /\ Nanosecond t = ns.
Proof.
  intros Hh Hmi Hs Hns ->.
  unfold absDays, Hour, Minute, Second, Nanosecond, secOfDay, nsPerDay,
    nsPerSecond, secondsPerDay.
  Z.div_mod_to_equations. lia.
Qed.

(** Reading the fields of a [Date] built from a date of the calendar and a
    time of the day gives them back. *)
Lemma dateOf_Date (y m d h mi s ns : Z) :
  validDate y m d ->
  0 <= h < 24 -> 0 <= mi < 60 -> 0 <= s < 60 -> 0 <= ns < 1000000000 ->
  dateOf (Date y m d h mi s ns) = (y, m, d)
  /\ Hour (Date y m d h mi s ns) = h /\ Minute (Date y m d h mi s ns) = mi
  /\ Second (Date y m d h mi s ns) = s
  /\ Nanosecond (Date y m d h mi s ns) = ns.
Proof.
  intros Hv Hh Hmi Hs Hns.
  destruct (absDays_unique _ _ _ _ _ _ Hh Hmi Hs Hns
              (Date_civil y m d h mi s ns (proj1 Hv))) as (Ha & Hr).
  split; [|exact Hr].
  generalize (dateOf_spec (Date y m d h mi s ns)).
  destruct (dateOf (Date y m d h mi s ns)) as [[y2 m2] d2].
  intros [Hv2 Hc]. rewrite Ha in Hc.
  destruct (civilDays_inj _ _ _ _ _ _ Hv2 Hv Hc) as (-> & -> & ->).
  reflexivity.
Qed.

Lemma monthStart_next (y m : Z) :
  1 <= m <= 12 ->
  monthStart (y + m / 12) (m mod 12 + 1) = monthStart y m + daysIn m y.
Proof.
  intros H. destruct (monthStep y m H) as (E & _ & _). unfold monthStart.
  destruct (Z.eq_dec m 12) as [->|N].
  - change (12 / 12) with 1. change (12 mod 12 + 1) with 1.
    rewrite daysSinceEpoch_succ. unfold yearLen, leapAdj, daysIn in *.
    change (12 =? 2) with false. cbn [andb].
    change (3 <=? 1) with false. change (3 <=? 12) with true.
    rewrite andb_false_r, andb_true_r. cbn. destruct (isLeap y); lia.
  - replace (m / 12) with 0 by (Z.div_mod_to_equations; lia).
    replace (m mod 12 + 1) with (m + 1) by (Z.div_mod_to_equations; lia).
    rewrite Z.add_0_r. replace (m + 1 - 1) with m by lia. lia.
Qed.

(** A day number past the end of its month is a day of the next month. *)
Lemma Date_overflow (y mo d h mi s ns : Z) :
  let y' := y + (mo - 1) / 12 in
  let m' := (mo - 1) mod 12 + 1 in
  Date y mo d h mi s ns
  = Date (y' + m' / 12) (m' mod 12 + 1) (d - daysIn m' y') h mi s ns.
Proof.
  intros y' m'.
  assert (Hm : 1 <= m' <= 12) by (subst m'; Z.div_mod_to_equations; lia).
  rewrite Date_norm. fold y' m'.
  rewrite (Date_civil (y' + m' / 12) (m' mod 12 + 1))
    by (Z.div_mod_to_equations; lia).
  unfold civilDays. rewrite (monthStart_next y' m' Hm). lia.
Qed.

Lemma AddDate_years_months (n : Z) (t : Time) :
  AddDate n 0 0 t = AddDate 0 (12 * n) 0 t.
Proof.
  unfold AddDate. destruct (dateOf t) as [[y m] d].
  rewrite !Date_norm, !Z.add_0_r.
  replace (y + n + (m - 1) / 12) with (y + (m + 12 * n - 1) / 12)
    by (Z.div_mod_to_equations; lia).
  replace ((m + 12 * n - 1) mod 12) with ((m - 1) mod 12)
    by (Z.div_mod_to_equations; lia).
  reflexivity.
Qed.




End MonthEnd.

(** ** Editing *)

Section Editing.

Lemma setNth_length (k : nat) (x : TodoItem) (l : list TodoItem) :
  List.length (setNth k x l) = List.length l.
Proof.
  revert k. induction l as [|i r IH]; intros [|k]; cbn; auto.
Qed.

Lemma setNth_other (k j : nat) (x : TodoItem) (l : list TodoItem) :
  j <> k -> nth_error (setNth k x l) j = nth_error l j.
Proof.
  revert k j. induction l as [|i r IH]; intros [|k] [|j] H; cbn; auto;
    try contradiction.
Qed.

Lemma setNth_same (k : nat) (x y : TodoItem) (l : list TodoItem) :
  nth_error l k = Some y -> nth_error (setNth k x l) k = Some x.
Proof.
  revert k. induction l as [|i r IH]; intros [|k]; cbn; try discriminate; auto.
Qed.

Lemma findItem_absent (id : string) (its : list TodoItem) :
  (forall it, In it its -> ID it <> id) -> findItem id its = None.
Proof.
  induction its as [|i r IH]; intros H; cbn; [reflexivity|].
  destruct (ID i =? id) eqn:E.
  - apply String.eqb_eq in E. exfalso. apply (H i); [now left | exact E].
  - rewrite IH; [reflexivity|]. intros it Hin. apply H. now right.
Qed.

Lemma autoSave_items (a : App) (k : nat) (target : TodoItem) :
  currentEditItemID a <> "" -> sbTitleEntry (sb a) <> "" ->
  findItem (currentEditItemID a) (items a) = Some k ->
  nth_error (items a) k = Some target ->
  items (autoSave a) = setNth k (editedItem (sb a) (groups a) target) (items a).
Proof.
  intros H1 H2 H3 H4. unfold autoSave.
  apply String.eqb_neq in H1, H2. rewrite H1, H2, H3, H4. reflexivity.
Qed.

Lemma editedItem_frame (s : Sidebar) (gs : list Group.t) (it : TodoItem) :
  ID (editedItem s gs it) = ID it
  /\ SeriesID (editedItem s gs it) = SeriesID it
  /\ Completed (editedItem s gs it) = Completed it
  /\ GroupName (editedItem s gs it) = GroupName it
  /\ Title (editedItem s gs it) = sbTitleEntry s.
Proof.
  unfold editedItem.
  destruct (if _ =? TypeTask then _ else _) as [st en].
  repeat split.
Qed.

(** C9.  An edit writes to the one occurrence the edit identity points at:
    every other occurrence of the store is what it was, and the edited one
    keeps its identity, its completion flag and its series identity, so
    that deleting the whole series of a sibling still removes it. *)
Theorem C9_edit_frame (a : App) (k : nat) (target : TodoItem) :
  currentEditItemID a <> "" -> sbTitleEntry (sb a) <> "" ->
  findItem (currentEditItemID a) (items a) = Some k ->
  nth_error (items a) k = Some target ->
  List.length (items (autoSave a)) = List.length (items a)
  /\ (forall j, j <> k -> nth_error (items (autoSave a)) j = nth_error (items a) j)
  /\ exists edited,
       nth_error (items (autoSave a)) k = Some edited
       /\ ID edited = ID target
       /\ SeriesID edited = SeriesID target
       /\ Completed edited = Completed target
       /\ GroupName edited = GroupName target
       /\ Title edited = sbTitleEntry (sb a)
       /\ forall sibling, SeriesID sibling = SeriesID target ->
            ~ In edited (deleteAll sibling (items (autoSave a))).
Proof.
  intros H1 H2 H3 H4. rewrite (autoSave_items a k target H1 H2 H3 H4).
  split; [apply setNth_length|]. split; [intros j Hj; now apply setNth_other|].
  exists (editedItem (sb a) (groups a) target).
  destruct (editedItem_frame (sb a) (groups a) target) as (E1 & E2 & E3 & E4 & E5).
  split; [exact (setNth_same _ _ _ _ H4)|].
  repeat (split; [assumption|]).
  intros sibling Hs Hin. unfold deleteAll in Hin.
  rewrite keepLoop_filter in Hin. cbn [app] in Hin.
  apply filter_In in Hin. destruct Hin as [_ Hk].
  rewrite E2, Hs, String.eqb_refl in Hk. discriminate Hk.
Qed.

Lemma C9_edit_frame_witness :
  let s := setTitleText "Gym (legs)" sampleSidebar in
  let a := withEdit "3" (sampleApp sampleSeries s) in
  map SeriesID (items (autoSave a)) = map SeriesID sampleSeries
  /\ nth_error (items (autoSave a)) 3 = nth_error sampleSeries 3.
Proof.
  intros s a.
  destruct (C9_edit_frame a 2 (task "3" "Gym" "2024-03-18 18:00" "s-1"))
    as (_ & H & _).
  - intros K; discriminate K.
  - intros K; discriminate K.
  - reflexivity.
  - reflexivity.
  - split; [vm_compute; reflexivity|]. apply H. discriminate.
Defined.

(** C10.  With no edit in progress, with an empty title, or with an edit
    identity that no stored occurrence bears, [autoSave] leaves the whole
    state as it is: no occurrence changes, nothing is saved, no dialog is
    shown. *)
Theorem C10_edit_noop (a : App) :
  currentEditItemID a = "" \/ sbTitleEntry (sb a) = ""
  \/ (forall it, In it (items a) -> ID it <> currentEditItemID a) ->
  autoSave a = a.
Proof.
  intros [H|[H|H]]; unfold autoSave.
  - rewrite H. reflexivity.
  - rewrite H. cbn [String.eqb]. now destruct (currentEditItemID a =? "").
  - rewrite (findItem_absent _ _ H).
    destruct (currentEditItemID a =? ""); [reflexivity|].
    now destruct (sbTitleEntry (sb a) =? "").
Qed.

Lemma C10_edit_noop_witness :
  let a := withEdit "3" (sampleApp sampleSeries (setTitleText "" sampleSidebar)) in
  items (autoSave a) = sampleSeries /\ log (autoSave a) = [].
Proof.
  intros a. rewrite (C10_edit_noop a (or_intror (or_introl eq_refl))).
  split; reflexivity.
Defined.

End Editing.

(** ** Validation on creation *)

Section Creation.

Lemma sameStore_refl (a : App) : sameStore a a.
Proof.
  unfold sameStore. repeat split.
  - exists (sbGroupSelect (sb a)). now destruct (sb a).
  - exists 0%nat. cbn. now rewrite app_nil_r.
Qed.

Lemma sameStore_trans (a b c : App) :
  sameStore a b -> sameStore b c -> sameStore a c.
Proof.
  intros (A1 & A2 & A3 & A4 & A5 & [x A6] & [n A7])
         (B1 & B2 & B3 & B4 & B5 & [y B6] & [m B7]).
  unfold sameStore.
  rewrite B1, B2, B3, B4, B5, B6, B7, A1, A2, A3, A4, A5, A6, A7.
  repeat split.
  - exists y. reflexivity.
  - exists (n + m)%nat. now rewrite repeat_app, app_assoc.
Qed.

Lemma autoSave_idle (a : App) : currentEditItemID a = "" -> autoSave a = a.
Proof. intros H. unfold autoSave. now rewrite H. Qed.

Lemma sameStore_fold (f : App -> string -> App) (opts : list string) :
  (forall a o, currentEditItemID a = "" -> sameStore a (f a o)) ->
  forall a, currentEditItemID a = "" -> sameStore a (fold_left f opts a).
Proof.
  intros Hf. induction opts as [|o r IH]; intros a Ha; cbn [fold_left].
  - apply sameStore_refl.
  - pose proof (Hf a o Ha) as S1.
    apply (sameStore_trans _ _ _ S1). apply IH.
    destruct S1 as (_ & _ & E & _). now rewrite E.
Qed.

Lemma sameStore_select (x : string) (a : App) :
  sameStore a (withSidebar (setGroupSelected x (sb a)) a).
Proof.
  unfold sameStore. cbn. repeat split.
  - now exists x.
  - exists 0%nat. cbn. now rewrite app_nil_r.
Qed.

Lemma sameStore_form (a : App) : sameStore a (emit [ShowGroupForm] a).
Proof.
  unfold sameStore. repeat split.
  - exists (sbGroupSelect (sb a)). cbn [sb emit]. now destruct (sb a).
  - now exists 1%nat.
Qed.

Lemma groupChanged_idle (text : string) (a : App) :
  currentEditItemID a = "" -> sameStore a (groupChanged text a).
Proof.
  intros Ha. unfold groupChanged.
  set (a1 := withSidebar (setGroupSelected text (sb a)) a).
  assert (S1 : sameStore a a1) by apply sameStore_select.
  assert (E1 : currentEditItemID a1 = "") by exact Ha.
  destruct (text =? "+ Create New Group").
  - set (a2 := emit [ShowGroupForm] a1).
    assert (S2 : sameStore a1 a2) by apply sameStore_form.
    apply (sameStore_trans _ _ _ S1). apply (sameStore_trans _ _ _ S2).
    apply sameStore_fold; [|exact E1].
    intros b o Hb. destruct ("" =? o); [|apply sameStore_refl].
    rewrite autoSave_idle by exact Hb. apply sameStore_select.
  - rewrite autoSave_idle by exact E1. exact S1.
Qed.

Lemma SetSelectedGroup_idle (text : string) (a : App) :
  currentEditItemID a = "" -> sameStore a (SetSelectedGroup text a).
Proof.
  intros Ha. unfold SetSelectedGroup.
  apply sameStore_fold; [|exact Ha].
  intros b o Hb. destruct (text =? o); [|apply sameStore_refl].
  now apply groupChanged_idle.
Qed.

Lemma formTimes_select (x : string) (s : Sidebar) :
  formTimes (setGroupSelected x s) = formTimes s.
Proof. reflexivity. Qed.

Lemma In_ShowError_repeat (msg : string) (l : list Effect) (n : nat) :
  In (ShowError msg) (l ++ repeat ShowGroupForm n) -> In (ShowError msg) l.
Proof.
  intros H. apply in_app_or in H. destruct H as [H|H]; [exact H|].
  apply repeat_spec in H. discriminate H.
Qed.

(** C8 (amended).  A create request with an empty title shows an error and
    leaves the store as it is; so does one for which no group is selected
    when there is no group at all.  When no group is selected and there are
    groups, the request is not refused: with the first group bearing an
    identity (and no edit in progress, the only state that shows the
    button) the occurrence is created in the first group and no error is
    shown. *)
Theorem C8_create_validation (fuel : nat) (a : App) :
  (7 <= fuel)%nat ->
  (sbTitleEntry (sb a) = "" ->
   exists a', handleSidebarAction fuel a = Done a'
              /\ items a' = items a
              /\ log a' = (log a ++ [ShowError "title required"])%list)
  /\ (sbTitleEntry (sb a) <> "" ->
      groupIDByName (groups a) (sbGroupSelect (sb a)) "" = "" ->
      groups a = [] ->
      exists a', handleSidebarAction fuel a = Done a'
                 /\ items a' = items a
                 /\ log a' = (log a ++ [ShowError "please select a group"])%list)
  /\ (sbTitleEntry (sb a) <> "" ->
      groupIDByName (groups a) (sbGroupSelect (sb a)) "" = "" ->
      firstGroupID (groups a) <> "" ->
      currentEditItemID a = "" ->
      formTimes (sb a) <> None ->
      exists a' base rest,
        handleSidebarAction fuel a = Done a'
        /\ items a' = (items a ++ base :: rest)%list
        /\ GroupID base = firstGroupID (groups a)
        /\ Title base = sbTitleEntry (sb a)
        /\ forall msg, In (ShowError msg) (log a') -> In (ShowError msg) (log a)).
Proof.
  intros Hf. split; [|split].
  - intros Ht. unfold handleSidebarAction. rewrite Ht. cbn [String.eqb].
    eexists. split; [reflexivity|]. split; reflexivity.
  - intros Ht Hg Hn. unfold handleSidebarAction, resolveGroup.
    apply String.eqb_neq in Ht. rewrite Ht, Hg, Hn. cbn [String.eqb].
    eexists. split; [reflexivity|]. split; reflexivity.
  - intros Ht Hg H0 He Hft. unfold handleSidebarAction, resolveGroup.
    apply String.eqb_neq in Ht. rewrite Ht, Hg.
    destruct (groups a) as [|g0 gs] eqn:Eg; [now contradiction H0|].
    cbn [firstGroupID] in *. cbn [String.eqb].
    apply String.eqb_neq in H0. rewrite H0.
    set (a1 := SetSelectedGroup (Group.Name g0) a).
    destruct (SetSelectedGroup_idle (Group.Name g0) a He)
      as (S1 & S2 & S3 & S4 & S5 & [x S6] & [n S7]).
    fold a1 in S1, S2, S3, S4, S5, S6, S7.
    rewrite S6, formTimes_select.
    destruct (formTimes (sb a)) as [[[sVal eVal] ty]|]; [|now contradiction Hft].
    destruct (expansion_total fuel a1 (Group.ID g0) sVal eVal ty Hf)
      as (base & gen & E).
    rewrite <- S6, E.
    destruct (expansion_inv _ _ _ _ _ _ _ _ E) as (_ & _ & _ & G & T & _).
    eexists _, base, (map snd gen). split; [reflexivity|].
    cbn [items withSidebar emit withTicks withItems log].
    rewrite S1. split; [reflexivity|]. split; [exact G|].
    split; [rewrite T, S6; reflexivity|].
    intros msg Hin. rewrite S7 in Hin.
    apply in_app_or in Hin. destruct Hin as [Hin|Hin].
    + exact (In_ShowError_repeat _ _ _ Hin).
    + cbn in Hin. destruct Hin as [K|[K|[K|[]]]]; discriminate K.
Qed.

Lemma C8_create_validation_witness :
  let a := sampleApp sampleSeries (setTitleText "" sampleSidebar) in
  exists a', handleSidebarAction 7 a = Done a' /\ items a' = sampleSeries.
Proof.
  intros a.
  destruct (proj1 (C8_create_validation 7 a (le_n 7)) eq_refl)
    as (a' & H1 & H2 & _).
  exists a'. split; assumption.
Defined.

(** Two groups, none selected: the occurrence is created in the first
    group, and no error is shown. *)
Lemma C8_counterexample :
  let a := sampleApp [] (setGroupSelected "" sampleSidebar) in
  match handleSidebarAction 7 a with
  | Done a' =>
      map GroupID (items a') = ["g-2"]
      /\ forall msg, ~ In (ShowError msg) (log a')
  | _ => False
  end.
Proof.
  vm_compute. split; [reflexivity|].
  intros msg [K|[K|[K|[]]]]; discriminate K.
Qed.

End Creation.

(* ================================================================== *)
(** * Further properties of the code *)

Section StoredTimestamps.
Open Scope Z_scope.

Lemma digit_ok (d : Z) :
  0 <= d <= 9 ->
  isDigit (digitChar d) = true /\ digitVal (digitChar d) = d
  /\ isSpace (digitChar d) = false.
Proof.
  intros H.
  assert (K : digitOk d = true)
    by (apply (allBelow_spec 10); [vm_compute; reflexivity | lia]).
  unfold digitOk in K.
  rewrite !andb_true_iff, Z.eqb_eq, negb_true_iff in K. tauto.
Qed.

Lemma appendInt_2 (x : Z) :
  0 <= x < 100 ->
  appendInt x 2
  = String (digitChar (x / 10)) (String (digitChar (x mod 10)) EmptyString).
Proof.
  intros H. unfold appendInt. cbn [Nat.eqb andb].
  rewrite Z.abs_eq by lia.
  replace (x <? 0) with false by (symmetry; apply Z.ltb_ge; lia).
  replace (x <? 100) with true by (symmetry; apply Z.ltb_lt; lia).
  reflexivity.
Qed.

Lemma appendInt_4 (x : Z) :
  0 <= x < 10000 ->
  appendInt x 4
  = String (digitChar (x / 1000))
      (String (digitChar (x / 100 mod 10))
         (String (digitChar (x / 10 mod 10))
            (String (digitChar (x mod 10)) EmptyString))).
Proof.
  intros H. unfold appendInt. cbn [Nat.eqb andb].
  rewrite Z.abs_eq by lia.
  replace (x <? 0) with false by (symmetry; apply Z.ltb_ge; lia).
  replace (x <? 10000) with true by (symmetry; apply Z.ltb_lt; lia).
  reflexivity.
Qed.

Lemma getnum_appendInt (x : Z) (fixed : bool) (rest : string) :
  0 <= x < 100 ->
  getnum (appendInt x 2 ++ rest) fixed = Some (x, rest).
Proof.
  intros H. rewrite appendInt_2 by assumption. cbn [append getnum].
  destruct (digit_ok (x / 10)) as (A1 & A2 & _);
    [Z.div_mod_to_equations; lia|].
  destruct (digit_ok (x mod 10)) as (B1 & B2 & _);
    [Z.div_mod_to_equations; lia|].
  rewrite A1, B1, A2, B2. f_equal. f_equal. Z.div_mod_to_equations. lia.
Qed.

Lemma getyear_appendInt (x : Z) (rest : string) :
  0 <= x < 10000 ->
  getyear (appendInt x 4 ++ rest) = Some (x, rest).
Proof.
  intros H. rewrite appendInt_4 by assumption. cbn [append getyear].
  destruct (digit_ok (x / 1000)) as (A1 & A2 & _);
    [Z.div_mod_to_equations; lia|].
  destruct (digit_ok (x / 100 mod 10)) as (B1 & B2 & _);
    [Z.div_mod_to_equations; lia|].
  destruct (digit_ok (x / 10 mod 10)) as (C1 & C2 & _);
    [Z.div_mod_to_equations; lia|].
  destruct (digit_ok (x mod 10)) as (D1 & D2 & _);
    [Z.div_mod_to_equations; lia|].
  rewrite A1, B1, C1, D1, A2, B2, C2, D2. cbn [andb].
  f_equal. f_equal. Z.div_mod_to_equations. lia.
Qed.

Lemma append_nil_r (s : string) : (s ++ "")%string = s.
Proof. induction s as [|c r IH]; cbn; [reflexivity | now rewrite IH]. Qed.

Lemma cutspace_appendInt (x : Z) (rest : string) :
  0 <= x < 100 -> cutspace (appendInt x 2 ++ rest) = appendInt x 2 ++ rest.
Proof.
  intros H. rewrite appendInt_2 by assumption. cbn [append cutspace].
  destruct (digit_ok (x / 10)) as (_ & _ & A); [Z.div_mod_to_equations; lia|].
  now rewrite A.
Qed.

(** A stored timestamp reads back as the instant it was written from. *)
Lemma Parse_Format_item (t : Time) :
  0 <= Year t <= 9999 -> Second t = 0 -> Nanosecond t = 0 ->
  Parse layoutItem (Format layoutItem t) = Some t.
Proof.
  intros Hy Hs Hn.
  pose proof (Date_dateOf t) as HD.
  generalize (dateOf_spec t). revert Hy HD. unfold Year, Month, Day.
  unfold Format, layoutItem.
  cbn [map formatChunk String.concat append].
  unfold Year, Month, Day.
  destruct (dateOf t) as [[y m] d]. cbn [fst snd].
  intros Hy HD [[Hm Hd] _].
  destruct (clock_spec t) as (_ & Hh & Hmi & _).
  destruct (monthStep y m Hm) as (_ & Hdim & _).
  unfold Parse, layoutItem. cbn [parseChunks parseChunk].
  rewrite getyear_appendInt by lia. cbn [skip isSpace Ascii.eqb Bool.eqb].
  rewrite getnum_appendInt by lia.
  replace ((m <=? 0) || (12 <? m)) with false
    by (symmetry; apply orb_false_iff; split; [apply Z.leb_gt | apply Z.ltb_ge]; lia).
  cbn [skip isSpace Ascii.eqb Bool.eqb fYear fMonth fDay fHour fMin fSec fNsec noFields].
  rewrite getnum_appendInt by lia.
  cbn [skip isSpace Ascii.eqb Bool.eqb fYear fMonth fDay fHour fMin fSec fNsec noFields cutspace].
  rewrite cutspace_appendInt by lia.
  rewrite getnum_appendInt by lia.
  replace ((Hour t <? 0) || (24 <=? Hour t)) with false
    by (symmetry; apply orb_false_iff; split; [apply Z.ltb_ge | apply Z.leb_gt]; lia).
  cbn [skip isSpace Ascii.eqb Bool.eqb fYear fMonth fDay fHour fMin fSec fNsec noFields].
  rewrite <- (append_nil_r (appendInt (Minute t) 2)).
  rewrite getnum_appendInt by lia.
  replace ((Minute t <? 0) || (60 <=? Minute t)) with false
    by (symmetry; apply orb_false_iff; split; [apply Z.ltb_ge | apply Z.leb_gt]; lia).
  cbn [fYear fMonth fDay fHour fMin fSec fNsec].
  replace ((d <? 1) || (daysIn m y <? d)) with false
    by (symmetry; apply orb_false_iff; split; apply Z.ltb_ge; lia).
  rewrite Hs, Hn in HD. now rewrite HD.
Qed.

Lemma isDigit_val (c : ascii) : isDigit c = true -> 0 <= digitVal c <= 9.
Proof.
  unfold isDigit, digitVal. rewrite andb_true_iff, !Z.leb_le. lia.
Qed.

Lemma getnum_range (s : string) (fixed : bool) (v : Z) (r : string) :
  getnum s fixed = Some (v, r) -> 0 <= v <= 99.
Proof.
  unfold getnum. destruct s as [|a s]; [discriminate|].
  destruct (isDigit a) eqn:A; [|discriminate].
  pose proof (isDigit_val a A).
  destruct s as [|b s].
  - destruct fixed; [discriminate|]. intros [= <- <-]. lia.
  - destruct (isDigit b) eqn:B.
    + pose proof (isDigit_val b B). intros [= <- <-]. lia.
    + destruct fixed; [discriminate|]. intros [= <- <-]. lia.
Qed.

Lemma getyear_range (s : string) (v : Z) (r : string) :
  getyear s = Some (v, r) -> 0 <= v <= 9999.
Proof.
  unfold getyear.
  destruct s as [|a [|b [|c [|d s]]]]; try discriminate.
  destruct (isDigit a) eqn:A; [|discriminate].
  destruct (isDigit b) eqn:B; [|discriminate].
  destruct (isDigit c) eqn:C; [|discriminate].
  destruct (isDigit d) eqn:D; [|discriminate].
  cbn [andb]. intros [= <- <-].
  pose proof (isDigit_val a A). pose proof (isDigit_val b B).
  pose proof (isDigit_val c C). pose proof (isDigit_val d D). lia.
Qed.

Lemma firstN_length (n : nat) (s : string) : (String.length (firstN n s) <= n)%nat.
Proof.
  revert s. induction n as [|n IH]; intros [|c s]; cbn; try lia.
  specialize (IH s). lia.
Qed.

Lemma digitsVal_bound (s : string) (acc v : Z) :
  0 <= acc -> digitsVal acc s = Some v ->
  0 <= v < (acc + 1) * 10 ^ Z.of_nat (String.length s).
Proof.
  revert acc. induction s as [|c s IH]; intros acc Ha; cbn [digitsVal String.length].
  - intros [= <-]. cbn. lia.
  - destruct (isDigit c) eqn:C; [|discriminate].
    pose proof (isDigit_val c C) as Hc. intros H.
    apply IH in H; [|lia].
    rewrite Nat2Z.inj_succ, Z.pow_succ_r by lia.
    assert (0 < 10 ^ Z.of_nat (String.length s)) by (apply Z.pow_pos_nonneg; lia).
    nia.
Qed.

Lemma getfrac_range (s : string) (v : Z) (r : string) :
  getfrac s = Some (v, r) -> 0 <= v < 1000000000.
Proof.
  unfold getfrac. destruct s as [|sep [|d s]]; try discriminate.
  destruct (_ && _); [|discriminate].
  destruct (spanDigits (String d s)) as [ds rest].
  destruct (digitsVal 0 (firstN 9 ds)) as [w|] eqn:E; [|discriminate].
  intros H.
  assert (E2 : v = w * 10 ^ Z.of_nat (9 - String.length (firstN 9 ds)))
    by congruence.
  clear H. subst v.
  pose proof (digitsVal_bound _ 0 _ ltac:(lia) E) as B.
  pose proof (firstN_length 9 ds) as L.
  set (k := String.length (firstN 9 ds)) in *.
  replace (Z.of_nat (9 - k)) with (9 - Z.of_nat k) by lia.
  assert (P : 10 ^ Z.of_nat k * 10 ^ (9 - Z.of_nat k) = 10 ^ 9)
    by (rewrite <- Z.pow_add_r by lia; f_equal; lia).
  assert (0 < 10 ^ (9 - Z.of_nat k)) by (apply Z.pow_pos_nonneg; lia).
  change (10 ^ 9) with 1000000000 in P.
  generalize dependent (10 ^ Z.of_nat k). intros A B P.
  generalize dependent (10 ^ (9 - Z.of_nat k)). intros X P HX.
  assert (w * X <= (A - 1) * X) by (apply Z.mul_le_mono_nonneg_r; lia).
  rewrite Z.mul_sub_distr_r in *. split; [apply Z.mul_nonneg_nonneg; lia | lia].
Qed.

Lemma parseChunk_ok (c : Chunk) (f f' : Fields) (v v' : string) :
  fieldsOk f -> parseChunk c f v = Some (f', v') -> fieldsOk f'.
Proof.
  unfold fieldsOk. intros (Hy & Hm & Hh & Hmi & Hs & Hn).
  destruct c; cbn [parseChunk].
  - destruct (skip false s v); [|discriminate]. intros [= <- <-]. tauto.
  - destruct (getyear v) as [[y r]|] eqn:E; [|discriminate].
    intros [= <- <-]. apply getyear_range in E. cbn. tauto.
  - destruct (getnum v true) as [[m r]|] eqn:E; [|discriminate].
    destruct ((m <=? 0) || (12 <? m)) eqn:R; [discriminate|].
    intros [= <- <-]. apply orb_false_iff in R.
    rewrite Z.leb_gt, Z.ltb_ge in R. cbn. repeat split; try tauto; try lia.
  - destruct (getnum v true) as [[d r]|] eqn:E; [|discriminate].
    intros [= <- <-]. cbn. tauto.
  - destruct (getnum v false) as [[h r]|] eqn:E; [|discriminate].
    destruct ((h <? 0) || (24 <=? h)) eqn:R; [discriminate|].
    intros [= <- <-]. apply orb_false_iff in R.
    rewrite Z.ltb_ge, Z.leb_gt in R. cbn. repeat split; try tauto; lia.
  - destruct (getnum v true) as [[m r]|] eqn:E; [|discriminate].
    destruct ((m <? 0) || (60 <=? m)) eqn:R; [discriminate|].
    intros [= <- <-]. apply orb_false_iff in R.
    rewrite Z.ltb_ge, Z.leb_gt in R. cbn. repeat split; try tauto; lia.
  - destruct (getnum v true) as [[s r]|] eqn:E; [|discriminate].
    destruct ((s <? 0) || (60 <=? s)) eqn:R; [discriminate|].
    apply orb_false_iff in R. rewrite Z.ltb_ge, Z.leb_gt in R.
    destruct (getfrac r) as [[ns r']|] eqn:F.
    + intros [= <- <-]. apply getfrac_range in F. cbn.
      repeat split; try tauto; lia.
    + intros [= <- <-]. cbn. repeat split; try tauto; lia.
Qed.

Lemma parseChunks_ok (l : Layout) (f f' : Fields) (v v' : string) :
  fieldsOk f -> parseChunks l f v = Some (f', v') -> fieldsOk f'.
Proof.
  revert f v. induction l as [|c l IH]; intros f v Hf; cbn [parseChunks].
  - now intros [= <- <-].
  - destruct (parseChunk c f v) as [[f1 v1]|] eqn:E; [|discriminate].
    apply IH. exact (parseChunk_ok _ _ _ _ _ Hf E).
Qed.

Lemma parseChunks_nosec (l : Layout) (f f' : Fields) (v v' : string) :
  noSeconds l -> parseChunks l f v = Some (f', v') ->
  fSec f' = fSec f /\ fNsec f' = fNsec f.
Proof.
  unfold noSeconds. revert f v.
  induction l as [|c l IH]; intros f v Hl; cbn [parseChunks].
  - now intros [= <- <-].
  - inversion Hl as [|? ? Hc Hr]; subst.
    destruct (parseChunk c f v) as [[f1 v1]|] eqn:E; [|discriminate].
    intros H. destruct (IH _ _ Hr H) as [H1 H2]. rewrite H1, H2.
    clear - Hc E. destruct c; cbn [parseChunk] in E;
      repeat match type of E with
             | context [match ?x with _ => _ end] => destruct x; try discriminate E
             | context [if ?x then _ else _] => destruct x; try discriminate E
             end;
      try (apply Some_eq in E; inversion E; subst; cbn; tauto);
      try contradiction.
Qed.

(** What [Parse] accepts is an instant of the calendar: a date that
    exists, in the years 0 to 9999, and a time of the day. *)
Lemma Parse_inv (l : Layout) (v : string) (t : Time) :
  Parse l v = Some t ->
  exists f,
    parseChunks l noFields v = Some (f, EmptyString)
    /\ validDate (fYear f) (fMonth f) (fDay f) /\ fieldsOk f
    /\ t = Date (fYear f) (fMonth f) (fDay f) (fHour f) (fMin f) (fSec f) (fNsec f).
Proof.
  unfold Parse.
  destruct (parseChunks l noFields v) as [[f r]|] eqn:E; [|discriminate].
  destruct r; [|discriminate].
  destruct ((fDay f <? 1) || (daysIn (fMonth f) (fYear f) <? fDay f)) eqn:R;
    [discriminate|].
  intros [= <-]. exists f. split; [reflexivity|].
  assert (Hf : fieldsOk f).
  { assert (H0 : fieldsOk noFields) by (unfold fieldsOk; cbn; lia).
    exact (parseChunks_ok _ _ _ _ _ H0 E). }
  apply orb_false_iff in R. rewrite !Z.ltb_ge in R.
  split; [|split; [exact Hf | reflexivity]].
  destruct Hf as (_ & [Hm|Hm] & _).
  - rewrite Hm in R. exfalso. destruct R as [R1 R2].
    unfold daysIn in R2. cbn in R2.
    destruct (isLeap (fYear f)); cbn in R2; lia.
  - split; [exact Hm | lia].
Qed.

Lemma Parse_fields (l : Layout) (v : string) (t : Time) :
  Parse l v = Some t ->
  0 <= Year t <= 9999 /\ validDate (Year t) (Month t) (Day t)
  /\ (noSeconds l -> Second t = 0 /\ Nanosecond t = 0).
Proof.
  intros H. destruct (Parse_inv _ _ _ H) as (f & E & Hv & Hf & ->).
  destruct Hf as (Hy & _ & Hh & Hmi & Hs & Hn).
  destruct (dateOf_Date _ _ _ _ _ _ _ Hv Hh Hmi Hs Hn) as (D & _ & _ & S & N).
  unfold Year, Month, Day. rewrite D. cbn [fst snd].
  split; [exact Hy|]. split; [exact Hv|].
  intros Hl. destruct (parseChunks_nosec _ _ _ _ _ Hl E) as [E1 E2].
  cbn in E1, E2. rewrite S, N. auto.
Qed.

Lemma onMinute_mod (t : Time) : onMinute t <-> t mod 60000000000 = 0.
Proof.
  unfold onMinute, Second, Nanosecond, secOfDay, nsPerSecond, secondsPerDay.
  split; intros H; Z.div_mod_to_equations; lia.
Qed.

Lemma layoutItem_noSeconds : noSeconds layoutItem.
Proof. unfold noSeconds, layoutItem. repeat constructor; discriminate. Qed.

Lemma orZero_Parse_item (v : string) :
  let t := orZero (Parse layoutItem v) in
  onMinute t /\ 0 <= Year t <= 9999.
Proof.
  cbv zeta. destruct (Parse layoutItem v) as [t|] eqn:E; cbn [orZero].
  - destruct (Parse_fields _ _ _ E) as (Hy & _ & Hs).
    split; [exact (Hs layoutItem_noSeconds) | exact Hy].
  - vm_compute. repeat split; intros K; discriminate K.
Qed.

(** Every stored timestamp, well-formed or not, is read as an instant on
    the minute in the years 0 to 9999, and writing that instant and
    reading it again gives the same instant. *)
Lemma startTime_stable (i : TodoItem) :
  Parse layoutItem (Format layoutItem (startTime i)) = Some (startTime i).
Proof.
  destruct (orZero_Parse_item (Start i)) as ([Hs Hn] & Hy).
  now apply Parse_Format_item.
Qed.

Lemma AddDate_clock (ys ms ds : Z) (t : Time) :
  Second (AddDate ys ms ds t) = Second t
  /\ Nanosecond (AddDate ys ms ds t) = Nanosecond t
  /\ Hour (AddDate ys ms ds t) = Hour t
  /\ Minute (AddDate ys ms ds t) = Minute t.
Proof.
  unfold AddDate. destruct (dateOf t) as [[y m] d].
  destruct (clock_spec t) as (_ & Hh & Hmi & Hs & Hn).
  destruct (absDays_unique _ _ _ _ _ _ Hh Hmi Hs Hn
              (Date_norm (y + ys) (m + ms) (d + ds) (Hour t) (Minute t)
                 (Second t) (Nanosecond t))) as (_ & H1 & H2 & H3 & H4).
  auto.
Qed.

Lemma advance_onMinute (fuel : nat) (s : Sidebar) (t t' : Time) :
  onMinute t -> advance fuel s t = Some t' -> onMinute t'.
Proof.
  unfold onMinute. intros [Hs Hn]. unfold advance.
  assert (A : forall a b c, Second (AddDate a b c t) = 0
                            /\ Nanosecond (AddDate a b c t) = 0).
  { intros a b c. destruct (AddDate_clock a b c t) as (E1 & E2 & _).
    rewrite E1, E2. auto. }
  destruct (recModeRadio s =? "Interval")%string.
  - intros [= <-].
    repeat match goal with |- context [if ?c then _ else _] => destruct c end;
      auto.
  - destruct (nextWeekday fuel 0 t (targetWeekdayOf (recDaySelect s)))
      as [d|] eqn:E; [|discriminate].
    assert (Hd : Second d = 0 /\ Nanosecond d = 0).
    { clear - E A. revert E. generalize 0 at 1.
      induction fuel as [|fuel IH]; intros k; cbn [nextWeekday]; [discriminate|].
      destruct (_ =? _); [intros [= <-]; apply A | apply IH]. }
    intros [= <-]. destruct (recOrdinalSelect s =? "Every Other")%string; auto.
    destruct (AddDate_clock 0 0 7 d) as (E1 & E2 & _). rewrite E1, E2. auto.
Qed.

Lemma expandLoop_onMinute (fuel remaining : nat) (s : Sidebar)
    (now : nat -> Z) (tick : nat) (baseItem : TodoItem) (duration : Duration)
    (limitDate cur : Time) (count : Z) (gen : list (Time * TodoItem)) :
  onMinute cur ->
  expandLoop fuel remaining s now tick baseItem duration limitDate cur count
  = Some gen ->
  forall t it, In (t, it) gen -> onMinute t.
Proof.
  revert tick cur count gen.
  induction remaining as [|r IH]; intros tick cur count gen Hc.
  - cbn [expandLoop]. intros [= <-] t it [].
  - rewrite expandLoop_S.
    destruct (advance fuel s cur) as [t|] eqn:Et; [|discriminate].
    pose proof (advance_onMinute _ _ _ _ Hc Et) as Ht.
    destruct (After t limitDate); [intros [= <-] ? ? []|].
    destruct (expandLoop fuel r s now (S tick) baseItem duration limitDate t
                (count + 1)) as [rest|] eqn:Er; [|discriminate].
    intros [= <-] t' it [K|Hin].
    + assert (t' = t) by congruence. now subst.
    + exact (IH _ _ _ _ Ht Er t' it Hin).
Qed.

Lemma expansion_reads_back (fuel : nat) (a : App) (gid sVal eVal : string)
    (ty : ItemType) (base : TodoItem) (gen : list (Time * TodoItem)) :
  expansion fuel a gid sVal eVal ty = Some (base, gen) ->
  forall t it, In (t, it) gen ->
    (0 <= Year t <= 9999 -> startTime it = t)
    /\ (minDuration <= endTime base - startTime base <= maxDuration ->
        0 <= Year (t + (endTime base - startTime base)) <= 9999 ->
        endTime it = t + (endTime base - startTime base)).
Proof.
  intros He t it Hin.
  destruct (expansion_inv _ _ _ _ _ _ _ _ He) as (Hs & Hen & _ & _ & _ & Hg).
  destruct (recCheck (sb a)); [|subst gen; destruct Hin].
  destruct Hg as [n Hg].
  destruct (orZero_Parse_item sVal) as (M0 & _).
  destruct (orZero_Parse_item eVal) as (M1 & _).
  pose proof (expandLoop_onMinute _ _ _ _ _ _ _ _ _ _ _ M0 Hg t it Hin) as Mt.
  destruct (expandLoop_items _ _ _ _ _ _ _ _ _ _ _ Hg t it Hin) as (x & c & ->).
  unfold startTime, endTime, generatedItem. cbn [Start End_].
  rewrite Hs, Hen. split.
  - intros Hy. destruct Mt as [A B]. now rewrite Parse_Format_item.
  - intros Hd Hy. unfold Add, Sub.
    replace ((minDuration <=? orZero (Parse layoutItem eVal) - orZero (Parse layoutItem sVal))
             && (orZero (Parse layoutItem eVal) - orZero (Parse layoutItem sVal) <=? maxDuration))
      with true
      by (symmetry; apply andb_true_iff; split; apply Z.leb_le; lia).
    replace (t + (orZero (Parse layoutItem eVal) - orZero (Parse layoutItem sVal)))
      with (t + (orZero (Parse layoutItem eVal) - orZero (Parse layoutItem sVal))) in Hy
      by reflexivity.
    assert (M : onMinute (t + (orZero (Parse layoutItem eVal)
                               - orZero (Parse layoutItem sVal)))).
    { apply onMinute_mod. apply onMinute_mod in M0, M1, Mt.
      Z.div_mod_to_equations. lia. }
    destruct M as [A B]. now rewrite Parse_Format_item.
Qed.

End StoredTimestamps.

Section Display.
Open Scope Z_scope.

Lemma matchesDay_range (item : TodoItem) (y m d : Z) :
  1 <= m <= 12 ->
  (matchesDay item (dayStartOf y m d) (dayEndOf y m d) = true <->
   absDays (startTime item) <= civilDays y m d <= absDays (endTime item)).
Proof.
  intros Hm. unfold matchesDay, Before, After, Equal.
  rewrite andb_true_iff, orb_true_iff, !Z.ltb_lt, Z.eqb_eq.
  rewrite dayStartOf_civil, dayEndOf_civil by assumption.
  destruct (orZero_Parse_item (Start item)) as (M & _).
  apply onMinute_mod in M. fold (startTime item) in M.
  unfold absDays, nsPerDay, nsPerSecond.
  generalize dependent (startTime item). intros s M.
  generalize (endTime item). intros e.
  generalize (civilDays y m d). intros c.
  split; intros H; Z.div_mod_to_equations; lia.
Qed.

(** The number of day cells is the number of days of the month shown. *)
Lemma daysInMonth_daysIn (y m : Z) :
  1 <= m <= 12 -> daysInMonth y m = daysIn m y.
Proof.
  intros Hm. unfold daysInMonth, AddDate.
  destruct (monthStep y m Hm) as (_ & Hdim & _).
  assert (V1 : validDate y m 1) by (split; [exact Hm | lia]).
  destruct (dateOf_Date y m 1 0 0 0 0 V1) as (D & H1 & H2 & H3 & H4); try lia.
  rewrite D, H1, H2, H3, H4.
  assert (E : Date (y + 0) (m + 1) (1 + -1) 0 0 0 0
              = Date y m (daysIn m y) 0 0 0 0).
  { replace (y + 0) with y by lia.
    rewrite Date_norm, (Date_civil y m) by assumption.
    unfold civilDays.
    replace (m + 1 - 1) with m by lia.
    rewrite monthStart_next by assumption. lia. }
  rewrite E.
  assert (V2 : validDate y m (daysIn m y)) by (split; [exact Hm | lia]).
  destruct (dateOf_Date y m (daysIn m y) 0 0 0 0 V2) as (D2 & _); try lia.
  unfold Day. now rewrite D2.
Qed.

Lemma In_monthDays (d n : Z) :
  In d (map Z.of_nat (seq 1 (Z.to_nat n))) <-> 1 <= d <= n.
Proof.
  rewrite in_map_iff. split.
  - intros (k & <- & Hk). apply in_seq in Hk. lia.
  - intros H. exists (Z.to_nat d). split; [lia|]. apply in_seq. lia.
Qed.

(** X11.  The month grid has one cell for each day of the month shown, and a
    cell holds the items of the store whose days, from start to end,
    include the day of the cell. *)
Theorem calendar_cells (its : list TodoItem) (t : Time) :
  map fst (calendarCells its t)
  = map Z.of_nat (seq 1 (Z.to_nat (daysIn (Month t) (Year t))))
  /\ 28 <= daysIn (Month t) (Year t) <= 31
  /\ forall d cell item,
       In (d, cell) (calendarCells its t) ->
       validDate (Year t) (Month t) d
       /\ (In item cell <->
           In item its
           /\ absDays (startTime item) <= civilDays (Year t) (Month t) d
              <= absDays (endTime item)).
Proof.
  assert (Hm : 1 <= Month t <= 12).
  { generalize (dateOf_spec t). unfold Month.
    destruct (dateOf t) as [[y m] d0]. cbn [fst snd]. now intros [[Hm _] _]. }
  unfold calendarCells, monthDays.
  rewrite (daysInMonth_daysIn _ _ Hm).
  split; [|split].
  - rewrite map_map. cbn [fst]. now rewrite map_id.
  - apply monthStep. exact Hm.
  - intros d cell item Hin. apply in_map_iff in Hin.
    destruct Hin as (d' & E & Hd). apply In_monthDays in Hd.
    assert (d' = d) by congruence. subst d'.
    assert (cell = filter (fun item0 => matchesDay item0 (dayStartOf (Year t) (Month t) d)
                                          (dayEndOf (Year t) (Month t) d)) its)
      by congruence.
    subst cell. split; [split; assumption|].
    rewrite filter_In, matchesDay_range by assumption.
    reflexivity.
Qed.

End Display.

Section Reimport.
Open Scope Z_scope.

(** Neither layout of the importer accepts a timestamp in the form the
    export writes it. *)
Lemma export_form_rejected (t : Time) :
  0 <= Year t <= 9999 ->
  Parse layoutICalLocal (Format layoutICalUtc t) = None
  /\ Parse layoutICalDate (Format layoutICalUtc t) = None.
Proof.
  intros Hy.
  generalize (dateOf_spec t). revert Hy. unfold Year.
  unfold Format, layoutICalUtc.
  cbn [map formatChunk String.concat append].
  unfold Year, Month, Day.
  destruct (dateOf t) as [[y m] d]. cbn [fst snd].
  intros Hy [[Hm Hd] _].
  destruct (clock_spec t) as (_ & Hh & Hmi & Hs & _).
  destruct (monthStep y m Hm) as (_ & Hdim & _).
  unfold Parse, layoutICalLocal, layoutICalDate. cbn [parseChunks parseChunk].
  rewrite getyear_appendInt by lia.
  rewrite getnum_appendInt by lia.
  replace ((m <=? 0) || (12 <? m)) with false
    by (symmetry; apply orb_false_iff; split; [apply Z.leb_gt | apply Z.ltb_ge]; lia).
  rewrite getnum_appendInt by lia.
  cbn [skip isSpace Ascii.eqb Bool.eqb].
  split; [|reflexivity].
  rewrite getnum_appendInt by lia.
  replace ((Hour t <? 0) || (24 <=? Hour t)) with false
    by (symmetry; apply orb_false_iff; split; [apply Z.ltb_ge | apply Z.leb_gt]; lia).
  rewrite getnum_appendInt by lia.
  replace ((Minute t <? 0) || (60 <=? Minute t)) with false
    by (symmetry; apply orb_false_iff; split; [apply Z.ltb_ge | apply Z.leb_gt]; lia).
  rewrite getnum_appendInt by lia.
  replace ((Second t <? 0) || (60 <=? Second t)) with false
    by (symmetry; apply orb_false_iff; split; [apply Z.ltb_ge | apply Z.leb_gt]; lia).
  reflexivity.
Qed.

Lemma import_of_export (gs : list Group.t) (target : string) (now count : Z)
    (item : TodoItem) :
  importEvent target now count (exportEvent gs item)
  = Some (mkItem ("imp-" ++ fmtInt now ++ "-" ++ fmtInt count)
            ("[" ++ gNameOf gs (GroupID item) ++ "] " ++ Title item)
            "0001-01-01 00:00" "0001-01-01 00:00" TypeTask target "" false "").
Proof.
  unfold importEvent, exportEvent. cbn [summary dtstart dtend].
  destruct (orZero_Parse_item (Start item)) as (_ & Hs).
  destruct (orZero_Parse_item (End_ item)) as (_ & He).
  destruct (export_form_rejected (startTime item) Hs) as [S1 S2].
  destruct (export_form_rejected (endTime item) He) as [E1 E2].
  unfold importStart, importEnd. rewrite S1, S2, E1, E2. reflexivity.
Qed.

(** X13.  Whatever the store holds, every occurrence that comes back from an
    export followed by an import is a task at the zero time. *)
Theorem reimport_loses_times (a : App) (imp : TodoItem) :
  In imp (roundTrip a) ->
  Start imp = "0001-01-01 00:00"%string /\ End_ imp = "0001-01-01 00:00"%string
  /\ Type_ imp = TypeTask.
Proof.
  intros Hin. apply In_nth_error in Hin. destruct Hin as [k Hk].
  unfold roundTrip, exportICS in Hk.
  match type of Hk with
  | context [importLoop ?g ?now ?tick ?c (map (exportEvent ?gs) ?its)] =>
      destruct (importLoop_export gs g now its tick c) as [Hl Hn]
  end.
  assert (Hlt : (k < List.length (items a))%nat).
  { rewrite <- Hl. apply nth_error_Some. congruence. }
  destruct (nth_error (items a) k) as [item|] eqn:Ei;
    [|apply nth_error_None in Ei; lia].
  destruct (Hn k item Ei) as (imp' & H1 & H2).
  rewrite import_of_export in H2.
  assert (imp = imp') by congruence. subst imp'.
  apply Some_eq in H2. subst imp. repeat split.
Qed.

End Reimport.

Section CreationMore.
Open Scope string_scope.

Lemma expansion_ids (fuel : nat) (a : App) (gid sVal eVal : string)
    (ty : ItemType) (base : TodoItem) (gen : list (Time * TodoItem)) :
  expansion fuel a gid sVal eVal ty = Some (base, gen) ->
  Completed base = false
  /\ (if recCheck (sb a)
      then SeriesID base = "s-" ++ fmtInt (clock a (ticks a))
           /\ ID base = fmtInt (clock a (S (ticks a)))
      else SeriesID base = "" /\ ID base = fmtInt (clock a (ticks a)) /\ gen = [])
  /\ forall t it, In (t, it) gen ->
       Title it = Title base /\ Type_ it = Type_ base
       /\ GroupID it = GroupID base /\ SeriesID it = SeriesID base
       /\ Completed it = false.
Proof.
  intros He.
  assert (Hb : Completed base = false
               /\ (if recCheck (sb a)
                   then SeriesID base = "s-" ++ fmtInt (clock a (ticks a))
                        /\ ID base = fmtInt (clock a (S (ticks a)))
                   else SeriesID base = "" /\ ID base = fmtInt (clock a (ticks a))
                        /\ gen = [])).
  { revert He. unfold expansion. destruct (recCheck (sb a)).
    - match goal with
      | |- context [expandLoop ?f ?r ?s ?now ?tick ?b ?d ?l ?c ?n] =>
          destruct (expandLoop f r s now tick b d l c n)
      end; [|discriminate].
      intros H. apply Some_eq in H.
      assert (E := f_equal fst H). cbn [fst] in E. subst base.
      repeat split.
    - intros H. apply Some_eq in H.
      assert (E := f_equal fst H). assert (E2 := f_equal snd H).
      cbn [fst snd] in E, E2. subst base gen. repeat split. }
  destruct Hb as [Hc Hb]. split; [exact Hc|]. split; [exact Hb|].
  intros t it Hin.
  destruct (expansion_inv _ _ _ _ _ _ _ _ He) as (_ & _ & _ & _ & _ & Hg).
  destruct (recCheck (sb a)); [|subst gen; destruct Hin].
  destruct Hg as [n Hg].
  destruct (expandLoop_items _ _ _ _ _ _ _ _ _ _ _ Hg t it Hin) as (x & c & ->).
  unfold generatedItem. cbn [Title Type_ GroupID SeriesID Completed].
  repeat split. exact Hc.
Qed.

(** The outcomes of "Add Item" when no edit is in progress. *)
Lemma handleSidebarAction_inv (fuel : nat) (a a' : App) :
  currentEditItemID a = "" ->
  handleSidebarAction fuel a = Done a' ->
  (items a' = items a /\ ticks a' = ticks a)
  \/ exists a1 gid sVal eVal ty base gen,
       sameStore a a1
       /\ expansion fuel a1 gid sVal eVal ty = Some (base, gen)
       /\ items a' = (items a ++ base :: map snd gen)%list.
Proof.
  intros He. unfold handleSidebarAction.
  destruct (sbTitleEntry (sb a) =? "").
  - intros H. assert (a' = emit [ShowError "title required"] a) by congruence.
    subst a'. left. split; reflexivity.
  - assert (S : sameStore a (snd (resolveGroup a))).
    { unfold resolveGroup. destruct (groups a) as [|g0 gs].
      - apply sameStore_refl.
      - destruct (_ =? ""); cbn [snd];
          [now apply SetSelectedGroup_idle | apply sameStore_refl]. }
    destruct (resolveGroup a) as [gid a1]. cbn [snd] in S.
    destruct (gid =? "").
    + intros H.
      assert (a' = emit [ShowError "please select a group"] a1) by congruence.
      subst a'. left. destruct S as (S1 & _ & _ & _ & S5 & _).
      split; [exact S1 | exact S5].
    + destruct (formTimes (sb a1)) as [[[sVal eVal] ty]|]; [|discriminate].
      destruct (expansion fuel a1 gid sVal eVal ty) as [[base gen]|] eqn:E;
        [|discriminate].
      intros H. right. exists a1, gid, sVal, eVal, ty, base, gen.
      split; [exact S|]. split; [exact E|].
      destruct S as (S1 & _).
      match type of H with Done ?x = Done _ => assert (a' = x) by congruence end.
      subst a'. cbn [items withSidebar emit withTicks withItems].
      now rewrite S1.
Qed.

(** X5.  Pressing "Add Item" never touches a stored occurrence: what was in
    the store is still there, in place, followed by what was created. *)
Theorem creation_appends (fuel : nat) (a a' : App) :
  currentEditItemID a = "" ->
  handleSidebarAction fuel a = Done a' ->
  exists new, items a' = (items a ++ new)%list
              /\ groups a' = groups a
              /\ Forall (fun it => Completed it = false
                                   /\ Title it = sbTitleEntry (sb a)) new.
Proof.
  intros He H.
  assert (Hg : groups a' = groups a).
  { revert H. unfold handleSidebarAction.
    destruct (sbTitleEntry (sb a) =? "").
    - intros H. assert (a' = emit [ShowError "title required"] a) by congruence.
      now subst a'.
    - assert (S : sameStore a (snd (resolveGroup a))).
      { unfold resolveGroup. destruct (groups a) as [|g0 gs].
        - apply sameStore_refl.
        - destruct (_ =? ""); cbn [snd];
            [now apply SetSelectedGroup_idle | apply sameStore_refl]. }
      destruct (resolveGroup a) as [gid a1]. cbn [snd] in S.
      destruct S as (_ & S2 & _).
      destruct (gid =? "").
      + intros H.
        assert (a' = emit [ShowError "please select a group"] a1) by congruence.
        now subst a'.
      + destruct (formTimes (sb a1)) as [[[sVal eVal] ty]|]; [|discriminate].
        destruct (expansion fuel a1 gid sVal eVal ty) as [[base gen]|];
          [|discriminate].
        intros H.
        match type of H with Done ?x = Done _ => assert (a' = x) by congruence end.
        now subst a'. }
  destruct (handleSidebarAction_inv fuel a a' He H)
    as [[H1 _]|(a1 & gid & sVal & eVal & ty & base & gen & S & E & H1)].
  - exists []. rewrite app_nil_r. repeat split; auto.
  - exists (base :: map snd gen). split; [exact H1|]. split; [exact Hg|].
    destruct (expansion_ids _ _ _ _ _ _ _ _ E) as (Hc & _ & Hall).
    destruct (expansion_inv _ _ _ _ _ _ _ _ E) as (_ & _ & _ & _ & T & _).
    destruct S as (_ & _ & _ & _ & _ & [x S6] & _).
    assert (T' : Title base = sbTitleEntry (sb a)) by (rewrite T, S6; reflexivity).
    constructor; [split; assumption|].
    apply Forall_forall. intros it Hin. apply in_map_iff in Hin.
    destruct Hin as ([t it'] & <- & Hin). cbn [snd].
    destruct (Hall t it' Hin) as (A1 & _ & _ & _ & A5).
    split; [exact A5 | now rewrite A1].
Qed.

Lemma findItem_app_fresh (id : string) (l r : list TodoItem) (x : TodoItem) :
  (forall it, In it l -> ID it <> id) -> ID x = id ->
  findItem id (l ++ x :: r) = Some (List.length l).
Proof.
  intros Hl Hx. induction l as [|i l IH]; cbn [app findItem List.length].
  - rewrite Hx, String.eqb_refl. reflexivity.
  - replace (ID i =? id) with false
      by (symmetry; apply String.eqb_neq; apply Hl; now left).
    rewrite IH; [reflexivity|]. intros it Hin. apply Hl. now right.
Qed.

Lemma filter_all (A : Type) (p : A -> bool) (l : list A) :
  (forall x, In x l -> p x = true) -> filter p l = l.
Proof.
  induction l as [|x l IH]; intros H; cbn; [reflexivity|].
  rewrite (H x (or_introl eq_refl)). f_equal. apply IH.
  intros y Hy. apply H. now right.
Qed.

Lemma filter_none (A : Type) (p : A -> bool) (l : list A) :
  (forall x, In x l -> p x = false) -> filter p l = [].
Proof.
  induction l as [|x l IH]; intros H; cbn; [reflexivity|].
  rewrite (H x (or_introl eq_refl)). apply IH.
  intros y Hy. apply H. now right.
Qed.

Lemma performSmartDelete_absent (a : App) (id : string) (answer : option Scope) :
  (forall it, In it (items a) -> ID it <> id) ->
  performSmartDelete id answer a = a.
Proof.
  intros H. unfold performSmartDelete. now rewrite (findItem_absent _ _ H).
Qed.

(** X9.  After "This Only" no occurrence bears the identity any more, and a
    second delete of it does nothing. *)
Theorem delete_this_only_twice (a : App) (id : string) (answer : option Scope) :
  let a1 := performSmartDelete id (Some ThisOnly) a in
  (forall it, In it (items a1) -> ID it <> id)
  /\ performSmartDelete id answer a1 = a1.
Proof.
  intros a1.
  assert (H : forall it, In it (items a1) -> ID it <> id).
  { subst a1. unfold performSmartDelete.
    destruct (findItem id (items a)) as [k|] eqn:Ef.
    - destruct (nth_error (items a) k) as [target|] eqn:En.
      + assert (K : forall it,
                  In it (items (finish (withItems (deleteThisOnly id (items a)) a))) ->
                  ID it <> id).
        { intros it. rewrite items_finish. cbn [items withItems].
          unfold deleteThisOnly. rewrite keepLoop_filter. cbn [app].
          rewrite filter_In, negb_true_iff, String.eqb_neq. tauto. }
        destruct (SeriesID target =? ""); exact K.
      + destruct (findItem_spec _ _ _ Ef) as (it & Hit & _). congruence.
    - now apply findItem_none. }
  split; [exact H | now apply performSmartDelete_absent].
Qed.

(** X6.  A recurring series that has just been created is removed again, and
    nothing else with it, by deleting "All" from its base, provided the two
    identities minted for it were not in use. *)
Theorem create_then_delete_all (fuel : nat) (a a' : App) :
  currentEditItemID a = "" -> recCheck (sb a) = true ->
  handleSidebarAction fuel a = Done a' ->
  let sid := "s-" ++ fmtInt (clock a (ticks a)) in
  let bid := fmtInt (clock a (S (ticks a))) in
  (forall it, In it (items a) -> SeriesID it <> sid /\ ID it <> bid) ->
  items (performSmartDelete bid (Some All) a') = items a.
Proof.
  intros He Hr H sid bid Hfresh.
  destruct (handleSidebarAction_inv fuel a a' He H)
    as [[H1 _]|(a1 & gid & sVal & eVal & ty & base & gen & S & E & H1)].
  - rewrite performSmartDelete_absent; [exact H1|].
    rewrite H1. intros it Hin. now apply Hfresh.
  - destruct S as (_ & _ & _ & S4 & S5 & [x S6] & _).
    destruct (expansion_ids _ _ _ _ _ _ _ _ E) as (_ & Hb & Hall).
    rewrite S6 in Hb. cbn [recCheck setGroupSelected] in Hb.
    rewrite Hr, S4, S5 in Hb. destruct Hb as [Hsid Hbid].
    fold sid in Hsid. fold bid in Hbid.
    unfold performSmartDelete. rewrite H1.
    rewrite (findItem_app_fresh bid (items a) (map snd gen) base);
      [|intros it Hin; now apply Hfresh | exact Hbid].
    rewrite nth_error_app2, Nat.sub_diag by lia. cbn [nth_error].
    replace (SeriesID base =? "") with false
      by (rewrite Hsid; reflexivity).
    rewrite items_finish. cbn [items withItems]. unfold deleteAll.
    rewrite keepLoop_filter. cbn [app]. rewrite filter_app.
    rewrite (filter_all _ _ (items a)).
    + rewrite (filter_none _ _ (base :: map snd gen)); [apply app_nil_r|].
      intros it [<-|Hin]; rewrite Hsid.
      * now rewrite String.eqb_refl.
      * apply in_map_iff in Hin. destruct Hin as ([t it'] & <- & Hin).
        cbn [snd]. destruct (Hall t it' Hin) as (_ & _ & _ & A & _).
        now rewrite A, Hsid, String.eqb_refl.
    + intros it Hin. rewrite Hsid. apply negb_true_iff, String.eqb_neq.
      now apply Hfresh.
Qed.

Lemma importLoop_spec (target : string) (now : nat -> Z) (evs : list VEvent) :
  forall (tick : nat) (count : Z),
  List.length (importLoop target now tick count evs)
  = List.length (filter importable evs)
  /\ Forall (fun it => SeriesID it = "" /\ Completed it = false
                       /\ GroupID it = target /\ GroupName it = "")
       (importLoop target now tick count evs).
Proof.
  induction evs as [|e r IH]; intros tick count; cbn [importLoop filter].
  - split; [reflexivity | constructor].
  - unfold importEvent, importable.
    destruct (summary e) as [title|]; [destruct (dtstart e) as [start|]|].
    + destruct (IH (S tick) (count + 1)%Z) as [H1 H2].
      split; [cbn [List.length]; now rewrite H1|].
      constructor; [repeat split | exact H2].
    + apply IH.
    + apply IH.
Qed.

(** X12.  An import adds to the end of the store one occurrence for each
    event that has a summary and a start, outside any series, not
    completed, in the first group; the occurrences already stored stay as
    they are.  A calendar that does not parse changes nothing and shows an
    error. *)
Theorem import_appends (evs : list VEvent) (a : App) :
  (exists new,
     items (importICS (Some evs) a) = (items a ++ new)%list
     /\ List.length new = List.length (filter importable evs)
     /\ Forall (fun it => SeriesID it = "" /\ Completed it = false
                          /\ GroupID it = firstGroupID (groups a)
                          /\ GroupName it = "") new)
  /\ items (importICS None a) = items a
  /\ log (importICS None a) = (log a ++ [ShowError "failed to parse"])%list.
Proof.
  split; [|split; reflexivity].
  unfold importICS.
  match goal with
  | |- context [importLoop ?g ?now ?tick ?c evs] =>
      destruct (importLoop_spec g now evs tick c) as [H1 H2];
      exists (importLoop g now tick c evs)
  end.
  split; [reflexivity|]. split; [exact H1|].
  unfold firstGroupID. exact H2.
Qed.

End CreationMore.

Section DayRules.
Open Scope Z_scope.

(** The window of one year is 365 or 366 days long. *)
Lemma year_window (t : Time) :
  exists W, (W = 365 \/ W = 366) /\ AddDate 1 0 0 t = t + W * nsPerDay.
Proof.
  pose proof (Date_dateOf t) as E. revert E.
  generalize (dateOf_spec t). unfold AddDate, Year, Month, Day.
  destruct (dateOf t) as [[y m] d]. cbn [fst snd]. intros [[Hm Hd] _] E.
  rewrite !Z.add_0_r. rewrite Date_civil in E by assumption.
  rewrite Date_civil by assumption.
  unfold civilDays, monthStart in *.
  rewrite daysSinceEpoch_succ.
  assert (K : leapAdj y m = 0 /\ leapAdj (y + 1) m = 0
              \/ (leapAdj y m = yearLen y - 365
                  /\ (leapAdj (y + 1) m = 0 \/ leapAdj (y + 1) m = 1))).
  { unfold leapAdj, yearLen. destruct (Z.leb_spec 3 m).
    - right. rewrite !andb_true_r. destruct (isLeap y), (isLeap (y + 1)); lia.
    - left. rewrite !andb_false_r. lia. }
  assert (Y : yearLen y = 365 \/ yearLen y = 366)
    by (unfold yearLen; destruct (isLeap y); lia).
  exists (yearLen y + leapAdj (y + 1) m - leapAdj y m).
  split; [lia|]. unfold nsPerDay. lia.
Qed.

Lemma advance_dayRule (fuel : nat) (s : Sidebar) (t : Time) :
  dayRule s ->
  1 <= stepDays s /\ advance fuel s t = Some (t + stepDays s * nsPerDay).
Proof.
  intros [Hm Hu]. unfold advance, stepDays. rewrite Hm.
  cbn [String.eqb Ascii.eqb Bool.eqb]. fold (intervalCount s).
  pose proof (intervalCount_pos s) as Hn.
  destruct Hu as [U|[U Hw]]; rewrite U; cbn [String.eqb Ascii.eqb Bool.eqb].
  - rewrite AddDate_days. split; [lia | reflexivity].
  - rewrite wrap64_small by (unfold minInt, maxInt in *; lia).
    rewrite AddDate_days. split; [lia|]. do 2 f_equal. lia.
Qed.

Lemma expandLoop_dayRule (fuel remaining : nat) (s : Sidebar)
    (now : nat -> Z) (tick : nat) (baseItem : TodoItem) (duration : Duration)
    (limitDate cur : Time) (count : Z) (gen : list (Time * TodoItem)) :
  dayRule s -> cur <= limitDate ->
  expandLoop fuel remaining s now tick baseItem duration limitDate cur count
  = Some gen ->
  let L := Z.of_nat (List.length gen) in
  let step := stepDays s * nsPerDay in
  L <= Z.of_nat remaining
  /\ cur + L * step <= limitDate
  /\ (L < Z.of_nat remaining -> limitDate < cur + (L + 1) * step)
  /\ forall i, (i < List.length gen)%nat ->
       nth_error (map fst gen) i = Some (cur + (Z.of_nat i + 1) * step).
Proof.
  intros Hr. destruct (advance_dayRule fuel s 0 Hr) as [Hpos _].
  revert tick cur count gen.
  induction remaining as [|r IH]; intros tick cur count gen Hc.
  - cbn [expandLoop]. intros [= <-]. cbn [List.length]. cbv zeta.
    repeat split; try lia.
  - rewrite expandLoop_S.
    destruct (advance_dayRule fuel s cur Hr) as [_ Ha]. rewrite Ha.
    unfold After. destruct (Z.ltb_spec limitDate (cur + stepDays s * nsPerDay)).
    + intros [= <-]. cbn [List.length]. cbv zeta.
      repeat split; try lia.
    + destruct (expandLoop fuel r s now (S tick) baseItem duration limitDate
                  (cur + stepDays s * nsPerDay) (count + 1))
        as [rest|] eqn:Er; [|discriminate].
      intros H0. apply Some_eq in H0. subst gen.
      destruct (IH _ _ _ _ H Er) as (H1 & H2 & H3 & H4).
      cbn [List.length map fst]. cbv zeta in *.
      rewrite !Nat2Z.inj_succ.
      split; [lia|]. split; [lia|]. split; [intros K; specialize (H3 ltac:(lia)); lia|].
      intros [|i] Hi; cbn [nth_error].
      * f_equal. lia.
      * rewrite H4 by lia. f_equal. lia.
Qed.


End DayRules.

Section Sidebar.
Open Scope string_scope.

Lemma append_assoc (a b c : string) : (a ++ b) ++ c = a ++ (b ++ c).
Proof. induction a as [|x a IH]; cbn; [reflexivity | now rewrite IH]. Qed.

Lemma combine_date (d h m ap : string) : combine d h m ap = d ++ combine "" h m ap.
Proof. reflexivity. Qed.

(** X14.  The time parts shown for an instant, put together again with its
    date, are the stored form of the instant. *)
Theorem time_parts_round_trip (t : Time) :
  let '(h, m, ap) := getTimeParts t in
  combine (Format layoutDate t) h m ap = Format layoutItem t.
Proof.
  destruct (clock_spec t) as (_ & Hh & Hm & _).
  assert (K : timePartsOk (Hour t) (Minute t) = true).
  { assert (A : allBelow 24 (fun h => allBelow 60 (fun m => timePartsOk h m)) = true)
      by (vm_compute; reflexivity).
    apply (allBelow_spec 60 (fun m => timePartsOk (Hour t) m)); [|lia].
    apply (allBelow_spec 24 (fun h => allBelow 60 (fun m => timePartsOk h m)) A).
    lia. }
  unfold getTimeParts. unfold timePartsOk in K.
  destruct (timeParts (Hour t) (Minute t)) as [[h m] ap].
  apply String.eqb_eq in K. rewrite combine_date, K.
  unfold Format, layoutDate, layoutItem.
  cbn [map formatChunk String.concat].
  rewrite !append_assoc. reflexivity.
Qed.

Lemma replaceSpaces_idem (s : string) :
  replaceSpaces (replaceSpaces s) = replaceSpaces s.
Proof.
  induction s as [|c r IH]; cbn [replaceSpaces]; [reflexivity|].
  rewrite IH. destruct (Ascii.eqb c " ") eqn:E; [reflexivity | now rewrite E].
Qed.

Lemma hasSpace_app (a b : string) : hasSpace (a ++ b) = hasSpace a || hasSpace b.
Proof.
  induction a as [|c a IH]; cbn [append hasSpace]; [reflexivity|].
  now rewrite IH, orb_assoc.
Qed.

Lemma hasSpace_replace (s : string) : hasSpace (replaceSpaces s) = false.
Proof.
  induction s as [|c r IH]; cbn [replaceSpaces hasSpace]; [reflexivity|].
  rewrite IH. destruct (Ascii.eqb c " ") eqn:E; [reflexivity | now rewrite E].
Qed.

(** X15.  The files of a calendar have no space in their names, and a
    calendar named with underscores where another has spaces is kept in
    the same two files. *)
Theorem calendar_files (name : string) :
  hasSpace (fst (getFilenames name)) = false
  /\ hasSpace (snd (getFilenames name)) = false
  /\ getFilenames (replaceSpaces name) = getFilenames name.
Proof.
  unfold getFilenames. cbn [fst snd].
  rewrite !hasSpace_app, hasSpace_replace, replaceSpaces_idem.
  repeat split.
Qed.

Lemma keepNames_filter (keep : string -> bool) (l : list string) :
  keepNames keep l = filter keep l.
Proof.
  unfold keepNames.
  assert (G : forall acc, fold_left (fun acc c => if keep c then acc ++ [c] else acc)%list l acc
                          = (acc ++ filter keep l)%list).
  { induction l as [|x l IH]; intros acc; cbn [fold_left filter].
    - now rewrite app_nil_r.
    - rewrite IH. destruct (keep x); [now rewrite <- app_assoc | reflexivity]. }
  apply G.
Qed.

Lemma NoDup_filter_str (p : string -> bool) (l : list string) :
  NoDup l -> NoDup (filter p l).
Proof.
  induction 1 as [|x l Hx Hl IH]; cbn [filter]; [constructor|].
  destruct (p x); [|exact IH].
  constructor; [|exact IH]. rewrite filter_In. tauto.
Qed.

Lemma existsb_eqb_In (x : string) (l : list string) :
  existsb (fun n => n =? x) l = true <-> In x l.
Proof.
  rewrite existsb_exists. split.
  - intros (y & Hy & E). apply String.eqb_eq in E. now subst.
  - intros H. exists x. split; [exact H | apply String.eqb_refl].
Qed.


Lemma moveOptions_filter (gs : list Group.t) (item : TodoItem) :
  moveOptions gs item
  = map Group.Name (filter (fun g => negb (Group.ID g =? GroupID item)) gs).
Proof.
  unfold moveOptions.
  assert (G : forall acc,
            fold_left (fun opts g => if negb (Group.ID g =? GroupID item)
                                     then opts ++ [Group.Name g] else opts)%list gs acc
            = (acc ++ map Group.Name
                        (filter (fun g => negb (Group.ID g =? GroupID item)) gs))%list).
  { induction gs as [|g gs IH]; intros acc; cbn [fold_left filter map].
    - now rewrite app_nil_r.
    - rewrite IH. destruct (negb _); [cbn [map]; now rewrite <- app_assoc | reflexivity]. }
  apply G.
Qed.

Lemma find_by_unique_name (gs : list Group.t) (g : Group.t) :
  NoDup (map Group.Name gs) -> In g gs ->
  find (fun x => Group.Name x =? Group.Name g) gs = Some g.
Proof.
  induction gs as [|x gs IH]; intros Hn Hin; [destruct Hin|].
  cbn [map] in Hn. inversion Hn as [|? ? Hx Hr]; subst.
  cbn [find]. destruct Hin as [->|Hin].
  - now rewrite String.eqb_refl.
  - destruct (String.eqb_spec (Group.Name x) (Group.Name g)) as [E|_].
    + exfalso. apply Hx. rewrite E. now apply in_map.
    + now apply IH.
Qed.

(** X17.  With distinct group names, "Move" puts the item into the group
    chosen, which is another group than before, and changes nothing else
    of the item nor any other item; with nothing chosen it does nothing. *)
Theorem move_changes_the_group (a : App) (k : nat) (item : TodoItem)
    (sel : string) :
  nth_error (items a) k = Some item ->
  NoDup (map Group.Name (groups a)) ->
  In sel (moveOptions (groups a) item) -> sel <> "" ->
  moveItem k "" a = a
  /\ exists g,
       In g (groups a) /\ Group.Name g = sel /\ Group.ID g <> GroupID item
       /\ nth_error (items (moveItem k sel a)) k
          = Some (withGroupID (Group.ID g) item)
       /\ forall j, j <> k ->
            nth_error (items (moveItem k sel a)) j = nth_error (items a) j.
Proof.
  intros Hk Hn Hs Hne. split; [reflexivity|].
  rewrite moveOptions_filter in Hs. apply in_map_iff in Hs.
  destruct Hs as (g & Hg & Hin). apply filter_In in Hin.
  destruct Hin as [Hin Hid]. apply negb_true_iff, String.eqb_neq in Hid.
  exists g. split; [exact Hin|]. split; [exact Hg|]. split; [exact Hid|].
  unfold moveItem. apply String.eqb_neq in Hne. rewrite Hne, Hk.
  cbn [items emit withItems].
  unfold groupIDByName. rewrite <- Hg, (find_by_unique_name _ _ Hn Hin).
  split; [exact (setNth_same _ _ _ _ Hk)|].
  intros j Hj. now apply setNth_other.
Qed.

Lemma increasing_tail (a : Time) (l : list Time) :
  increasing (a :: l) -> increasing l.
Proof. destruct l; [intros; exact I | intros [_ H]; exact H]. Qed.

Lemma filter_before_firstn (sid : string) (gen : list (Time * TodoItem)) :
  forall (k : nat) (tk : Time) (itk : TodoItem),
  increasing (map fst gen) ->
  (forall t it, In (t, it) gen -> startTime it = t /\ SeriesID it = sid) ->
  nth_error gen k = Some (tk, itk) ->
  filter (fun i => negb (SeriesID i =? sid) || (startTime i <? tk)%Z) (map snd gen)
  = map snd (firstn k gen).
Proof.
  induction gen as [|[t it] r IH]; intros k tk itk Hinc Hall Hk.
  - destruct k; discriminate Hk.
  - cbn [map fst snd] in *.
    destruct (Hall t it (or_introl eq_refl)) as [Hs Hi].
    assert (Hall' : forall t' it', In (t', it') r ->
                      startTime it' = t' /\ SeriesID it' = sid)
      by (intros ? ? ?; apply Hall; now right).
    destruct k as [|k]; cbn [nth_error firstn map] in *.
    + assert (tk = t) by congruence. subst tk.
      apply filter_none. intros x [<-|Hx].
      * rewrite Hi, String.eqb_refl, Hs. cbn [negb orb]. apply Z.ltb_irrefl.
      * apply in_map_iff in Hx. destruct Hx as ([t' it'] & <- & Hin). cbn [snd].
        destruct (Hall' t' it' Hin) as [Hs' Hi'].
        rewrite Hi', String.eqb_refl, Hs'. cbn [negb orb].
        apply Z.ltb_ge.
        pose proof (increasing_head t (map fst r) Hinc t'
                      ltac:(apply in_map_iff; exists (t', it'); auto)).
        lia.
    + cbn [filter].
      assert (Hlt : (t < tk)%Z).
      { apply (increasing_head t (map fst r) Hinc).
        apply in_map_iff. exists (tk, itk). split; [reflexivity|].
        now apply nth_error_In with k. }
      rewrite Hi, String.eqb_refl, Hs. cbn [negb orb].
      replace (t <? tk)%Z with true by (symmetry; now apply Z.ltb_lt).
      cbn [snd]. f_equal.
      apply (IH k tk itk (increasing_tail _ _ Hinc) Hall' Hk).
Qed.


End Sidebar.

Section Extras.

(** X1.  Whatever a stored timestamp holds, it is read as an instant on
    the minute in the years 0 to 9999, the zero time when it is not
    well-formed, and that instant written in the stored layout is read
    back as itself. *)
Theorem stored_timestamps_normalise (v : string) :
  let t := orZero (Parse layoutItem v) in
  onMinute t /\ (0 <= Year t <= 9999)%Z
  /\ Parse layoutItem (Format layoutItem t) = Some t
  /\ (Parse layoutItem v = None -> t = 0%Z).
Proof.
  cbv zeta. destruct (orZero_Parse_item v) as ([Hs Hn] & Hy).
  split; [split; assumption|]. split; [exact Hy|].
  split; [now apply Parse_Format_item|].
  intros E. now rewrite E.
Qed.



(** X3.  The occurrences created by one request are alike: every
    generated occurrence has the title, the type, the group and the series
    identity of the base and is not completed.  The series identity is the
    one minted for the request when recurrence is ticked, and empty, with
    nothing generated, when it is not. *)
Theorem series_members_alike (fuel : nat) (a : App) (gid sVal eVal : string)
    (ty : ItemType) (base : TodoItem) (gen : list (Time * TodoItem)) :
  expansion fuel a gid sVal eVal ty = Some (base, gen) ->
  Completed base = false
  /\ (if recCheck (sb a)
      then SeriesID base = "s-" ++ fmtInt (clock a (ticks a))
           /\ ID base = fmtInt (clock a (S (ticks a)))
      else SeriesID base = "" /\ ID base = fmtInt (clock a (ticks a)) /\ gen = [])
  /\ forall t it, In (t, it) gen ->
       Title it = Title base /\ Type_ it = Type_ base
       /\ GroupID it = GroupID base /\ SeriesID it = SeriesID base
       /\ Completed it = false.
Proof. exact (expansion_ids fuel a gid sVal eVal ty base gen). Qed.

Lemma series_members_alike_witness :
  match expansion 7 yearlyApp "g-1" "2024-03-05 09:00" "2024-03-05 10:30" TypeEvent with
  | Some (base, gen) =>
      SeriesID base = "s-1700000000000000000"
      /\ Forall (fun p => SeriesID (snd p) = SeriesID base) gen
  | None => False
  end.
Proof.
  destruct (expansion 7 yearlyApp "g-1" "2024-03-05 09:00" "2024-03-05 10:30" TypeEvent)
    as [[base gen]|] eqn:E.
  - destruct (series_members_alike 7 yearlyApp _ _ _ _ base gen E) as (_ & H1 & H2).
    split; [exact (proj1 H1)|].
    apply Forall_forall. intros [t it] Hin. cbn [snd].
    exact (proj1 (proj2 (proj2 (proj2 (H2 t it Hin))))).
  - vm_compute in E. discriminate E.
Defined.


Lemma creation_appends_witness :
  let a := sampleApp sampleSeries sampleSidebar in
  match handleSidebarAction 7 a with
  | Done a' => exists new, items a' = (sampleSeries ++ new)%list
  | _ => False
  end.
Proof.
  intros a.
  assert (D : match handleSidebarAction 7 a with Done _ => true | _ => false end
              = true) by (vm_compute; reflexivity).
  destruct (handleSidebarAction 7 a) as [a'| |] eqn:E.
  - destruct (creation_appends 7 a a' eq_refl E) as (new & H & _).
    exists new. exact H.
  - discriminate D.
  - discriminate D.
Defined.

Lemma sampleSeries_fresh (sid bid : string) :
  forallb (fun it => negb (SeriesID it =? sid) && negb (ID it =? bid)) sampleSeries
  = true ->
  forall it, In it sampleSeries -> SeriesID it <> sid /\ ID it <> bid.
Proof.
  intros H it Hin. rewrite forallb_forall in H. specialize (H it Hin).
  rewrite andb_true_iff, !negb_true_iff, !String.eqb_neq in H. exact H.
Qed.

Lemma create_then_delete_all_witness :
  match handleSidebarAction 7 yearlyApp with
  | Done a' =>
      items (performSmartDelete "1700000000000000001" (Some All) a') = sampleSeries
  | _ => False
  end.
Proof.
  assert (D : match handleSidebarAction 7 yearlyApp with
              | Done _ => true | _ => false end = true)
    by (vm_compute; reflexivity).
  destruct (handleSidebarAction 7 yearlyApp) as [a'| |] eqn:E.
  - apply (create_then_delete_all 7 yearlyApp a' eq_refl eq_refl E).
    apply sampleSeries_fresh. vm_compute. reflexivity.
  - discriminate D.
  - discriminate D.
Defined.


(** X8.  A delete for an identity that no stored occurrence bears does
    nothing at all, whatever the user answers: nothing is removed, nothing
    is saved, the sidebar is not reset. *)
Theorem delete_of_absent_identity (a : App) (id : string) (answer : option Scope) :
  (forall it, In it (items a) -> ID it <> id) ->
  performSmartDelete id answer a = a.
Proof. exact (performSmartDelete_absent a id answer). Qed.

Lemma delete_of_absent_identity_witness :
  let a := sampleApp sampleSeries sampleSidebar in
  performSmartDelete "99" (Some All) a = a.
Proof.
  intros a. apply delete_of_absent_identity.
  intros it Hin. exact (proj2 (sampleSeries_fresh "s-0" "99" eq_refl it Hin)).
Defined.

(** X10.  An item is drawn in the cell of a day exactly when that day lies
    between the day of its start and the day of its end, both included: an
    event of several days is drawn on each of them and on no other. *)
Theorem shown_from_start_day_to_end_day (item : TodoItem) (y m d : Z) :
  (1 <= m <= 12)%Z ->
  (matchesDay item (dayStartOf y m d) (dayEndOf y m d) = true <->
   (absDays (startTime item) <= civilDays y m d <= absDays (endTime item))%Z).
Proof. exact (matchesDay_range item y m d). Qed.

Lemma shown_from_start_day_to_end_day_witness :
  matchesDay sampleEvent (dayStartOf 2024 3 7) (dayEndOf 2024 3 7) = false.
Proof.
  destruct (shown_from_start_day_to_end_day sampleEvent 2024 3 7) as [H _].
  - lia.
  - destruct (matchesDay sampleEvent (dayStartOf 2024 3 7) (dayEndOf 2024 3 7));
      [|reflexivity].
    specialize (H eq_refl). vm_compute in H. destruct H as [_ H].
    exfalso. apply H. reflexivity.
Defined.

Lemma reimport_loses_times_witness :
  match roundTrip (sampleApp [sampleEvent] sampleSidebar) with
  | imp :: _ => Start imp = "0001-01-01 00:00" /\ Type_ imp = TypeTask
  | [] => False
  end.
Proof.
  destruct (roundTrip (sampleApp [sampleEvent] sampleSidebar)) as [|imp r] eqn:E.
  - vm_compute in E. discriminate E.
  - destruct (reimport_loses_times (sampleApp [sampleEvent] sampleSidebar) imp)
      as (H1 & _ & H3).
    + rewrite E. now left.
    + split; assumption.
Defined.


Lemma move_changes_the_group_witness :
  let a := sampleApp sampleSeries sampleSidebar in
  map GroupID (items (moveItem 0 "Personal" a))
  = ["g-2"; "g-1"; "g-1"; "g-1"; "g-1"; "g-1"].
Proof.
  intros a.
  destruct (move_changes_the_group a 0 (task "1" "Gym" "2024-03-04 18:00" "s-1")
              "Personal" eq_refl) as (_ & g & _ & _ & _ & H & _).
  - repeat constructor; cbn; intuition discriminate.
  - left. reflexivity.
  - discriminate.
  - vm_compute. reflexivity.
Defined.

End Extras.
